(** * chain-monitor: the messenger ETH balance reconciliation engine

    A shallow embedding of
    [internal/logic/cross_chain/messenger_cross_chain.go] (package
    [crosschain]) and of the [UpdateETHBalance] write path of package [orm],
    with the properties of the reconciliation engine stated over it.

    Conventions.
    - [*big.Int] and [decimal.Decimal] values are [Z]; a pointer that may be
      [nil] is an [option Z].
    - [uint64] block numbers and [int64] ids are [Z]; the one place where the
      source does arithmetic on a [uint64] ([endBlockNumber+ethBalanceGap])
      has its wrap-around written out.
    - The Go map [blockNumberAmountMap] and the message table are [gmap]s.
    - Effects (balance queries, row updates, alerts) are threaded through a
      small state monad [Eff] over a [World]; a Go panic is the outcome
      [Panicked]. *)

From Stdlib Require Import ZArith String Ascii List Lia.
From stdpp Require Import base option list gmap strings sorting.

Local Open Scope Z_scope.

(** ** Package [types]: enumerations

    The package [types] is not part of the sources at hand.  [LayerType] has
    the two values the engine dispatches on ([getLatestBlockNumber] rejects
    any other value before anything else runs).  The numeric values of the
    remaining constants are unknown, so they are parameters of the
    development. *)

Inductive LayerType := Layer1 | Layer2.

Class TypesConsts := {
  L1SentMessage : Z;
  L1RelayedMessage : Z;
  L2SentMessage : Z;
  L2RelayedMessage : Z;
  ETHAmountStatusTypeSet : Z;
  ETHBalanceStatusTypeValid : Z;
}.

(** The enumeration constants of one layer are pairwise different. *)
Definition distinct_events (K : TypesConsts) : Prop :=
  L1SentMessage ≠ L1RelayedMessage ∧ L2SentMessage ≠ L2RelayedMessage.

(** ** Package [orm]: the message-match row

    The declaration of [orm.MessengerMessageMatch] is not part of the sources
    at hand.  The record has the fields the engine reads or writes, with the
    types the sibling struct [orm.MessageMatch] gives them ([ETHAmount] is
    the base-10 string the engine hands to [SetString]). *)

Record MessengerMessageMatch := mkMessengerMessageMatch {
  ID : Z;
  L1EventType : Z;
  L1BlockNumber : Z;
  L2EventType : Z;
  L2BlockNumber : Z;
  ETHAmount : string;
  ETHAmountStatus : Z;
  L1MessengerETHBalance : Z;
  L1ETHBalanceStatus : Z;
  L2MessengerETHBalance : Z;
  L2ETHBalanceStatus : Z;
}.

(** [orm.MessengerMessageMatch{ID: id}]: every other field has the zero value
    of its type. *)
Definition zeroMessageMatch (id : Z) : MessengerMessageMatch :=
  mkMessengerMessageMatch id 0 0 0 0 EmptyString 0 0 0 0 0.

Definition setL1Balance (balance status : Z) (m : MessengerMessageMatch) :
    MessengerMessageMatch :=
  mkMessengerMessageMatch (ID m) (L1EventType m) (L1BlockNumber m)
    (L2EventType m) (L2BlockNumber m) (ETHAmount m) (ETHAmountStatus m)
    balance status (L2MessengerETHBalance m) (L2ETHBalanceStatus m).

Definition setL2Balance (balance status : Z) (m : MessengerMessageMatch) :
    MessengerMessageMatch :=
  mkMessengerMessageMatch (ID m) (L1EventType m) (L1BlockNumber m)
    (L2EventType m) (L2BlockNumber m) (ETHAmount m) (ETHAmountStatus m)
    (L1MessengerETHBalance m) (L1ETHBalanceStatus m) balance status.

(** The per-layer views of a row. *)
Definition blockNumberOf (layer : LayerType) (m : MessengerMessageMatch) : Z :=
  match layer with
  | Layer1 => L1BlockNumber m
  | Layer2 => L2BlockNumber m
  end.

Definition eventTypeOf (layer : LayerType) (m : MessengerMessageMatch) : Z :=
  match layer with
  | Layer1 => L1EventType m
  | Layer2 => L2EventType m
  end.

Definition balanceOf (layer : LayerType) (m : MessengerMessageMatch) : Z :=
  match layer with
  | Layer1 => L1MessengerETHBalance m
  | Layer2 => L2MessengerETHBalance m
  end.

Definition balanceStatusOf (layer : LayerType) (m : MessengerMessageMatch) : Z :=
  match layer with
  | Layer1 => L1ETHBalanceStatus m
  | Layer2 => L2ETHBalanceStatus m
  end.

(** ** [new(big.Int).SetString(s, 10)]

    With an explicit base 10 the accepted syntax is an optional sign followed
    by one or more decimal digits, and the whole string must be consumed. *)

Definition digitValue (c : ascii) : option Z :=
  let n := Z.of_N (N_of_ascii c) in
  if (48 <=? n) && (n <=? 57) then Some (n - 48) else None.

Fixpoint scanDigits (acc : Z) (s : string) : option Z :=
  match s with
  | EmptyString => Some acc
  | String c rest =>
      match digitValue c with
      | Some d => scanDigits (acc * 10 + d) rest
      | None => None
      end
  end.

Definition scanNat (s : string) : option Z :=
  match s with
  | EmptyString => None
  | _ => scanDigits 0 s
  end.

Definition SetString (s : string) : option Z :=
  match s with
  | EmptyString => None
  | String c rest =>
      if Ascii.eqb c "-"%char then Z.opp <$> scanNat rest
      else if Ascii.eqb c "+"%char then scanNat rest
      else scanNat s
  end.

(** ** Outcomes of Go code *)

Inductive Outcome (A : Type) :=
  | Done (a : A)
  | Panicked.
Arguments Done {A} a.
Arguments Panicked {A}.

(** ** The world the engine runs in

    [db] is the message table keyed by row id.  The other three fields are
    the history of the engine's calls to its collaborators, oldest first:
    the [BalanceAt] queries, the [UpdateETHBalance] calls, and the alerts
    sent through [slack.MrkDwnETHGatewayMessage]. *)

Record Alert := mkAlert {
  alertMessage : MessengerMessageMatch;
  alertExpected : option Z;
  alertActual : option Z;
}.

Record World := mkWorld {
  db : gmap Z MessengerMessageMatch;
  oracleCalls : list (LayerType * Z);
  updateCalls : list MessengerMessageMatch;
  alerts : list Alert;
}.

Definition Eff (A : Type) : Type := World → Outcome A * World.

Definition ret {A : Type} (a : A) : Eff A := λ w, (Done a, w).

Definition bind {A B : Type} (m : Eff A) (f : A → Eff B) : Eff B :=
  λ w, match m w with
       | (Done a, w') => f a w'
       | (Panicked, w') => (Panicked, w')
       end.

Definition liftOutcome {A : Type} (o : Outcome A) : Eff A := λ w, (o, w).

Notation "x ←← m ;; k" := (bind m (λ x, k))
  (at level 100, m at next level, right associativity).

(** ** The receiver [LogicMessengerCrossChain]

    The node clients, the store queries of [orm.MessengerMessageMatch] and
    the database driver are collaborators whose code is outside the engine;
    the receiver records how they answer.  A balance query and a row update
    may fail transiently, so their answers depend on how many calls came
    before (the [nat] argument). *)

Record LogicMessengerCrossChain := mkLogic {
  l1ClientBalanceAt : nat → Z → option Z;
  l2ClientBalanceAt : nat → Z → option Z;
  l1ClientHeaderByNumber : option Z;
  l2ClientHeaderByNumber : option Z;
  startMessengerBalance : Z;
  GetETHCheckStartBlockNumberAndBalance :
    gmap Z MessengerMessageMatch → LayerType → option (option Z);
  GetUncheckedLatestETHMessageMatch :
    gmap Z MessengerMessageMatch → LayerType → Z → option (list MessengerMessageMatch);
  GetETHMessageMatchByBlockRange :
    gmap Z MessengerMessageMatch → LayerType → Z → Z → option (list MessengerMessageMatch);
  updateFails : nat → MessengerMessageMatch → bool;
}.

(** [client.BalanceAt(ctx, messengerAddr, blockNumber)] on the client of
    [layer]; [None] is a failed query. *)
Definition BalanceAt (c : LogicMessengerCrossChain) (layer : LayerType)
    (blockNumber : Z) : Eff (option Z) :=
  λ w,
    let n := length (oracleCalls w) in
    let answer :=
      match layer with
      | Layer1 => l1ClientBalanceAt c n blockNumber
      | Layer2 => l2ClientBalanceAt c n blockNumber
      end in
    (Done answer,
     mkWorld (db w) (oracleCalls w ++ [(layer, blockNumber)]) (updateCalls w) (alerts w)).

Definition MrkDwnETHGatewayMessage (message : MessengerMessageMatch)
    (expectedEndBalance actualBalance : option Z) : Eff unit :=
  λ w,
    (Done tt,
     mkWorld (db w) (oracleCalls w) (updateCalls w)
       (alerts w ++ [mkAlert message expectedEndBalance actualBalance])).

(** ** [UpdateETHBalance] (package [orm])

    [db.Model(..).Where("id = ?", messageMatch.ID).Updates(map)]: the row with
    that id, if there is one, gets the two columns of the map.  Both columns
    are given the balance field of [messageMatch], as the source has it. *)

Definition writeETHBalance (layerType : LayerType)
    (messageMatch row : MessengerMessageMatch) : MessengerMessageMatch :=
  match layerType with
  | Layer1 =>
      setL1Balance (L1MessengerETHBalance messageMatch)
        (L1MessengerETHBalance messageMatch) row
  | Layer2 =>
      setL2Balance (L2MessengerETHBalance messageMatch)
        (L2MessengerETHBalance messageMatch) row
  end.

(** The result is the [err != nil] test of the caller.  The engine passes
    the handle [tx] of the surrounding transaction; the write is taken to
    happen on that handle, so that [Transaction] below decides whether it
    stays. *)
Definition UpdateETHBalance (c : LogicMessengerCrossChain) (layerType : LayerType)
    (messageMatch : MessengerMessageMatch) : Eff bool :=
  λ w,
    let calls := updateCalls w ++ [messageMatch] in
    if updateFails c (length (updateCalls w)) messageMatch
    then (Done true, mkWorld (db w) (oracleCalls w) calls (alerts w))
    else (Done false,
          mkWorld (alter (writeETHBalance layerType messageMatch) (ID messageMatch) (db w))
            (oracleCalls w) calls (alerts w)).

(** [db.Transaction(fn)]: commit when [fn] returns [nil], roll the table back
    when it returns an error or panics. *)
Definition Transaction (fn : Eff bool) : Eff bool :=
  λ w,
    match fn w with
    | (Done false, w') => (Done false, w')
    | (Done true, w') =>
        (Done true, mkWorld (db w) (oracleCalls w') (updateCalls w') (alerts w'))
    | (Panicked, w') =>
        (Panicked, mkWorld (db w) (oracleCalls w') (updateCalls w') (alerts w'))
    end.

(** ** [checkBalance]

    The result tuple [(bool, *big.Int, *big.Int, error)] has two shapes: the
    decode error of line 264, which carries the id of the offending row and
    two [nil] balances, and the completed comparison.  The Prometheus counter
    incremented per message is not part of the model. *)

Inductive CheckResult :=
  | CheckError (id : Z)
  | CheckDone (ok : bool) (expectedEndBalance actualBalance : Z).

Definition checkOk (r : CheckResult) : bool :=
  match r with
  | CheckError _ => false
  | CheckDone ok _ _ => ok
  end.

Section Engine.
Context {K : TypesConsts}.

(** The body of the two [if layer == ...] blocks: what one decoded amount
    does to the accumulator. *)
Definition applyEvent (layer : LayerType) (message : MessengerMessageMatch)
    (acc amount : Z) : Z :=
  let acc :=
    match layer with
    | Layer1 =>
        let acc := if L1EventType message =? L1SentMessage then acc + amount else acc in
        if L1EventType message =? L1RelayedMessage then acc - amount else acc
    | Layer2 => acc
    end in
  match layer with
  | Layer2 =>
      let acc := if L2EventType message =? L2SentMessage then acc + amount else acc in
      if L2EventType message =? L2RelayedMessage then acc - amount else acc
  | Layer1 => acc
  end.

(** The loop of lines 257-286: [inr id] is the early return on a decode
    failure. *)
Fixpoint balanceDiffLoop (layer : LayerType) (balanceDiff : Z)
    (messages : list MessengerMessageMatch) : Z + Z :=
  match messages with
  | [] => inl balanceDiff
  | message :: rest =>
      match SetString (ETHAmount message) with
      | None => inr (ID message)
      | Some amount =>
          balanceDiffLoop layer (applyEvent layer message balanceDiff amount) rest
      end
  end.

(** [new(big.Int).Add(startBalance, balanceDiff)] dereferences its first
    argument: a [nil] start balance panics there. *)
Definition checkBalance (layer : LayerType) (startBalance : option Z)
    (endBalance : Z) (messages : list MessengerMessageMatch) :
    Outcome CheckResult :=
  match balanceDiffLoop layer 0 messages with
  | inr id => Done (CheckError id)
  | inl balanceDiff =>
      match startBalance with
      | None => Panicked
      | Some startBalance =>
          let expectedEndBalance := startBalance + balanceDiff in
          if expectedEndBalance =? endBalance
          then Done (CheckDone true expectedEndBalance endBalance)
          else Done (CheckDone false expectedEndBalance endBalance)
      end
  end.

(** ** [computeBlockBalance], the pure part

    The first loop (lines 299-341) accumulates the net amount of every block
    in [blockNumberAmountMap]; [None] is the early return on a decode
    failure.  A map read [blockNumberAmountMap[k]] is modelled by
    [mapGet]: every read of the source hits an entry created beforehand (see
    [buildBlockNumberAmountMap_lookup] below), so the [nil] a missing key
    would give never reaches [Add]. *)

Definition mapGet (m : gmap Z Z) (k : Z) : Z := default 0 (m !! k).

Definition ensureEntry (k : Z) (m : gmap Z Z) : gmap Z Z :=
  match m !! k with
  | Some _ => m
  | None => <[k := 0]> m
  end.

Definition addBlockAmount (layer : LayerType) (message : MessengerMessageMatch)
    (amount : Z) (m : gmap Z Z) : gmap Z Z :=
  match layer with
  | Layer1 =>
      let k := L1BlockNumber message in
      let m := if L1EventType message =? L1SentMessage
               then <[k := mapGet m k + amount]> m else m in
      if L1EventType message =? L1RelayedMessage
      then <[k := mapGet m k - amount]> m else m
  | Layer2 =>
      let k := L2BlockNumber message in
      let m := if L2EventType message =? L2SentMessage
               then <[k := mapGet m k + amount]> m else m in
      if L2EventType message =? L2RelayedMessage
      then <[k := mapGet m k - amount]> m else m
  end.

Fixpoint buildBlockNumberAmountMap (layer : LayerType)
    (blockNumberAmountMap : gmap Z Z) (messages : list MessengerMessageMatch) :
    option (gmap Z Z) :=
  match messages with
  | [] => Some blockNumberAmountMap
  | message :: rest =>
      let m := ensureEntry (blockNumberOf layer message) blockNumberAmountMap in
      match SetString (ETHAmount message) with
      | None => None
      | Some amount =>
          buildBlockNumberAmountMap layer (addBlockAmount layer message amount m) rest
      end
  end.

(** The row built at lines 358-365.  [decimal.NewFromBigInt] copies its
    argument, so the later in-place [Add] on [lastBlockBalance] does not
    reach rows already built. *)
Definition balanceUpdate (layer : LayerType) (id lastBlockBalance : Z) :
    MessengerMessageMatch :=
  match layer with
  | Layer1 => setL1Balance lastBlockBalance ETHBalanceStatusTypeValid (zeroMessageMatch id)
  | Layer2 => setL2Balance lastBlockBalance ETHBalanceStatusTypeValid (zeroMessageMatch id)
  end.

(** The second loop (lines 346-367). *)
Fixpoint walkBlocks (layer : LayerType) (blockNumberAmountMap : gmap Z Z)
    (lastBlockBalance lastBlockNumber : Z)
    (messages : list MessengerMessageMatch) : list MessengerMessageMatch :=
  match messages with
  | [] => []
  | v :: rest =>
      let blockNumber := blockNumberOf layer v in
      let lastBlockBalance :=
        if blockNumber =? lastBlockNumber then lastBlockBalance
        else lastBlockBalance + mapGet blockNumberAmountMap blockNumber in
      balanceUpdate layer (ID v) lastBlockBalance
        :: walkBlocks layer blockNumberAmountMap lastBlockBalance blockNumber rest
  end.

(** [sort.Slice] with the comparison [ID i < ID j].  Go's sort is not stable;
    what the engine relies on is that the result is a permutation ordered by
    id, which is all the proofs below use of [merge_sort]. *)
Definition idLe (a b : MessengerMessageMatch) : Prop := ID a ≤ ID b.

#[local] Instance idLe_dec : RelDecision idLe.
Proof. intros a b. unfold idLe. apply _. Defined.

Definition sortByID (l : list MessengerMessageMatch) : list MessengerMessageMatch :=
  merge_sort idLe l.

(** The commit set handed to the transaction, [None] when the derivation
    returned early. *)
Definition updateETHMessageMatches (layer : LayerType)
    (messages : list MessengerMessageMatch) (messengerETHBalance : Z) :
    option (list MessengerMessageMatch) :=
  match buildBlockNumberAmountMap layer ∅ messages with
  | None => None
  | Some blockNumberAmountMap =>
      Some (sortByID (walkBlocks layer blockNumberAmountMap messengerETHBalance 0 messages))
  end.

(** ** Window selection (lines 114-141 of [CheckETHBalance]) *)

Fixpoint findTruncateBlockNumber (layer : LayerType)
    (messageMatches : list MessengerMessageMatch) : Z :=
  match messageMatches with
  | [] => 0
  | messageMatch :: rest =>
      if negb (ETHAmountStatus messageMatch =? ETHAmountStatusTypeSet)
      then blockNumberOf layer messageMatch
      else findTruncateBlockNumber layer rest
  end.

Fixpoint truncateLoop (layer : LayerType) (truncateBlockNumber : Z)
    (messageMatches : list MessengerMessageMatch) : list MessengerMessageMatch :=
  match messageMatches with
  | [] => []
  | message :: rest =>
      if truncateBlockNumber =? 0
      then message :: truncateLoop layer truncateBlockNumber rest
      else if blockNumberOf layer message <? truncateBlockNumber
           then message :: truncateLoop layer truncateBlockNumber rest
           else truncateLoop layer truncateBlockNumber rest
  end.

Definition truncatedMessageMatches (layer : LayerType)
    (messageMatches : list MessengerMessageMatch) : list MessengerMessageMatch :=
  truncateLoop layer (findTruncateBlockNumber layer messageMatches) messageMatches.

(** ** [computeBlockBalance]

    [messengerETHBalance] is never [nil] here: [CheckETHBalance] seeds it for
    both layers before the window reaches [checkETH].

    Both [computeBlockBalance] and the anchor scan of the bisector call
    [c.checker.MessengerCrossChainCheck(layer, message)] on every message and
    discard what it returns.  The checker is not part of the sources at hand;
    it is taken to leave the table and the three histories alone. *)

(** The closure passed to [db.Transaction] (lines 376-382). *)
Fixpoint updateLoop (c : LogicMessengerCrossChain) (layer : LayerType)
    (updates : list MessengerMessageMatch) : Eff bool :=
  match updates with
  | [] => ret false
  | updateEthMessageMatch :: rest =>
      err ←← UpdateETHBalance c layer updateEthMessageMatch ;;
      if err then ret true else updateLoop c layer rest
  end.

Definition computeBlockBalance (c : LogicMessengerCrossChain) (layer : LayerType)
    (messages : list MessengerMessageMatch) (messengerETHBalance : Z) : Eff unit :=
  match updateETHMessageMatches layer messages messengerETHBalance with
  | None => ret tt
  | Some updates =>
      _ ←← Transaction (updateLoop c layer updates) ;;
      ret tt
  end.

(** ** [checkBlockBalanceOneByOne] *)

(** The first loop (lines 204-223): the first message whose block balance can
    be queried gives [startBalance] and [startIndex]; when no query succeeds
    they keep their zero values, [nil] and [0]. *)
Fixpoint anchorScan (c : LogicMessengerCrossChain) (layer : LayerType)
    (idx : nat) (messages : list MessengerMessageMatch) : Eff (option Z * nat) :=
  match messages with
  | [] => ret (None, 0%nat)
  | message :: rest =>
      tmpBalance ←← BalanceAt c layer (blockNumberOf layer message) ;;
      match tmpBalance with
      | None => anchorScan c layer (S idx) rest
      | Some b => ret (Some b, idx)
      end
  end.

(** [i+1 != len(messages) && messages[i].BlockNumber == messages[i+1].BlockNumber] *)
Definition sameBlockAsNext (layer : LayerType)
    (messages : list MessengerMessageMatch) (i : nat) : bool :=
  match messages !! i, messages !! S i with
  | Some mi, Some next => blockNumberOf layer mi =? blockNumberOf layer next
  | _, _ => false
  end.

(** [messages[lo:hi]] *)
Definition slice (messages : list MessengerMessageMatch) (lo hi : nat) :
    list MessengerMessageMatch :=
  take (hi - lo) (drop lo messages).

(** One iteration of the second loop (lines 226-251). *)
Definition bisectStep (c : LogicMessengerCrossChain) (layer : LayerType)
    (messages : list MessengerMessageMatch) (startBalance : option Z)
    (startIndex i : nat) : Eff unit :=
  match messages !! i with
  | None => ret tt
  | Some mi =>
      if sameBlockAsNext layer messages i then ret tt
      else
        endBalance ←← BalanceAt c layer (blockNumberOf layer mi) ;;
        match endBalance with
        | None => ret tt
        | Some endBalance =>
            r ←← liftOutcome
                   (checkBalance layer startBalance endBalance
                      (slice messages startIndex (S i))) ;;
            match r with
            | CheckDone true _ _ => ret tt
            | CheckDone false expectedEndBalance actualBalance =>
                MrkDwnETHGatewayMessage mi (Some expectedEndBalance) (Some actualBalance)
            | CheckError _ => MrkDwnETHGatewayMessage mi None None
            end
        end
  end.

Fixpoint bisectLoop (c : LogicMessengerCrossChain) (layer : LayerType)
    (messages : list MessengerMessageMatch) (startBalance : option Z)
    (startIndex : nat) (indices : list nat) : Eff unit :=
  match indices with
  | [] => ret tt
  | i :: rest =>
      _ ←← bisectStep c layer messages startBalance startIndex i ;;
      bisectLoop c layer messages startBalance startIndex rest
  end.

(** [for i := startIndex + 1; i < len(messages); i++] *)
Definition indicesAfter (startIndex len : nat) : list nat :=
  seq (S startIndex) (len - S startIndex).

Definition checkBlockBalanceOneByOne (c : LogicMessengerCrossChain)
    (layer : LayerType) (messages : list MessengerMessageMatch) : Eff unit :=
  anchor ←← anchorScan c layer 0 messages ;;
  bisectLoop c layer messages anchor.1 anchor.2
    (indicesAfter anchor.2 (length messages)).

(** ** [checkETH] *)

Definition ethBalanceGap : Z := 50.

Definition isLayer1 (layer : LayerType) : bool :=
  match layer with
  | Layer1 => true
  | Layer2 => false
  end.

Definition checkETH (c : LogicMessengerCrossChain) (layer : LayerType)
    (startBlockNumber endBlockNumber latestBlockNumber startBalance : Z)
    (messages : list MessengerMessageMatch) : Eff unit :=
  if isLayer1 layer
     && ((endBlockNumber + ethBalanceGap) mod 2 ^ 64 <? latestBlockNumber)
  then computeBlockBalance c layer messages startBalance
  else
    endBalance ←← BalanceAt c layer endBlockNumber ;;
    match endBalance with
    | None => ret tt
    | Some endBalance =>
        r ←← liftOutcome (checkBalance layer (Some startBalance) endBalance messages) ;;
        match r with
        | CheckError _ => ret tt
        | CheckDone false _ _ => checkBlockBalanceOneByOne c layer messages
        | CheckDone true _ _ => computeBlockBalance c layer messages startBalance
        end
    end.

(** ** [CheckETHBalance] *)

Definition getLatestBlockNumber (c : LogicMessengerCrossChain)
    (layerType : LayerType) : option Z :=
  match layerType with
  | Layer1 => l1ClientHeaderByNumber c
  | Layer2 => l2ClientHeaderByNumber c
  end.

Definition getDb : Eff (gmap Z MessengerMessageMatch) := λ w, (Done (db w), w).

(** Lines 73-86: the seed of the start balance when the store has none. *)
Definition seedStartBalance (c : LogicMessengerCrossChain) (layerType : LayerType) :
    Eff (option Z) :=
  match layerType with
  | Layer2 => BalanceAt c Layer2 0
  | Layer1 => ret (Some (startMessengerBalance c))
  end.

Definition messageLimit : Z := 1000.

Definition CheckETHBalance (c : LogicMessengerCrossChain) (layerType : LayerType) :
    Eff unit :=
  match getLatestBlockNumber c layerType with
  | None => ret tt
  | Some latestBlockNumber =>
      store ←← getDb ;;
      match GetETHCheckStartBlockNumberAndBalance c store layerType with
      | None => ret tt
      | Some stored =>
          seeded ←← match stored with
                    | Some b => ret (Some b)
                    | None => seedStartBalance c layerType
                    end ;;
          match seeded with
          | None => ret tt
          | Some startBalance =>
              match GetUncheckedLatestETHMessageMatch c store layerType messageLimit with
              | None => ret tt
              | Some [] => ret tt
              | Some (first :: others) =>
                  let startBlockNumber := blockNumberOf layerType first in
                  let endBlockNumber :=
                    blockNumberOf layerType (List.last others first) in
                  match GetETHMessageMatchByBlockRange c store layerType
                          startBlockNumber endBlockNumber with
                  | None => ret tt
                  | Some messageMatches =>
                      match truncatedMessageMatches layerType messageMatches with
                      | [] => ret tt
                      | firstKept :: othersKept =>
                          checkETH c layerType
                            (blockNumberOf layerType firstKept)
                            (blockNumberOf layerType (List.last othersKept firstKept))
                            latestBlockNumber startBalance
                            (firstKept :: othersKept)
                      end
                  end
              end
          end
      end
  end.

End Engine.

(** * Package [l2watcher]: the progress cursors

    [startNumber] and [safeNumber] are two [uint64] cells read and written
    with [atomic.LoadUint64] and [atomic.StoreUint64].  The model is the
    sequential one: a store is visible to every later load. *)

Module L2Watcher.

Record L2Watcher := mkL2Watcher {
  startNumber : Z;
  safeNumber : Z;
}.

Definition StartNumber (l2 : L2Watcher) : Z := startNumber l2.

Definition setStartNumber (number : Z) (l2 : L2Watcher) : L2Watcher :=
  mkL2Watcher number (safeNumber l2).

Definition SafeNumber (l2 : L2Watcher) : Z := safeNumber l2.

Definition setSafeNumber (number : Z) (l2 : L2Watcher) : L2Watcher :=
  mkL2Watcher (startNumber l2) number.

Definition IsReady (l2 : L2Watcher) : bool := StartNumber l2 =? SafeNumber l2.

(** A write to one of the cursors, and a sequence of writes. *)
Inductive Store :=
  | StoreStart (number : Z)
  | StoreSafe (number : Z).

Definition store (l2 : L2Watcher) (s : Store) : L2Watcher :=
  match s with
  | StoreStart number => setStartNumber number l2
  | StoreSafe number => setSafeNumber number l2
  end.

Definition storeAll (l2 : L2Watcher) (stores : list Store) : L2Watcher :=
  foldl store l2 stores.

(** The last number written to the start cursor, [d] when there is none;
    the same for the safe cursor. *)
Definition lastStart (d : Z) (stores : list Store) : Z :=
  foldl (λ acc s, match s with StoreStart n => n | StoreSafe _ => acc end) d stores.

Definition lastSafe (d : Z) (stores : list Store) : Z :=
  foldl (λ acc s, match s with StoreSafe n => n | StoreStart _ => acc end) d stores.

End L2Watcher.

(** * Package [orm]: the queries and updates of [MessageMatch]

    The functions of [orm.MessageMatch] are chains of gorm calls.  [Gorm]
    models the calls they use over a table of rows; a row maps a column name
    to its value.  Two things gorm does for a model with the fields
    [DeletedAt] and [UpdatedAt] are part of the model: every query and
    update skips the rows whose [deleted_at] is not null, and every update
    stamps [updated_at] with the current time. *)

Module Gorm.

Inductive Value :=
  | VNull
  | VInt (z : Z)
  | VText (s : string)
  | VBytes (b : list Byte.byte).

Abbreviation Row := (gmap string Value).

(** The database handle: the rows of [message_match], and whether the
    driver fails the next statement. *)
Record DB := mkDB {
  table : list Row;
  driverError : bool;
}.

(** An integer column as the Go struct field reads it: the zero value when
    the column is null. *)
Definition field (col : string) (r : Row) : Z :=
  match r !! col with
  | Some (VInt z) => z
  | _ => 0
  end.

(** Comparisons of the [Where] clauses; a null column satisfies none. *)
Definition colTest (test : Z → bool) (col : string) (r : Row) : bool :=
  match r !! col with
  | Some (VInt z) => test z
  | _ => false
  end.

Definition colEq (col : string) (v : Z) : Row → bool := colTest (λ z, z =? v) col.
Definition colGe (col : string) (v : Z) : Row → bool := colTest (λ z, v <=? z) col.
Definition colLe (col : string) (v : Z) : Row → bool := colTest (λ z, z <=? v) col.
Definition colGt (col : string) (v : Z) : Row → bool := colTest (λ z, v <? z) col.
Definition colIn (col : string) (vs : list Z) : Row → bool :=
  colTest (λ z, existsb (Z.eqb z) vs) col.

(** [deleted_at IS NULL] *)
Definition visible (r : Row) : bool :=
  match r !! "deleted_at"%string with
  | None | Some VNull => true
  | Some _ => false
  end.

Inductive OrderBy := IdAsc | IdDesc.

(** A statement under construction. *)
Record Query := mkQuery {
  qDb : DB;
  qWhere : Row → bool;
  qOrder : option OrderBy;
  qLimit : option Z;
}.

(** [m.db.WithContext(ctx)], and [db.Model(&MessageMatch{})], which adds
    nothing to the statement but the table. *)
Definition WithContext (db : DB) : Query := mkQuery db (λ _, true) None None.
Definition Model (q : Query) : Query := q.

Definition Where (cond : Row → bool) (q : Query) : Query :=
  mkQuery (qDb q) (λ r, qWhere q r && cond r) (qOrder q) (qLimit q).

Definition Order (o : OrderBy) (q : Query) : Query :=
  mkQuery (qDb q) (qWhere q) (Some o) (qLimit q).

Definition Limit (limit : Z) (q : Query) : Query :=
  mkQuery (qDb q) (qWhere q) (qOrder q) (Some limit).

(** The rows a statement selects. *)
Definition selects (q : Query) (r : Row) : bool := visible r && qWhere q r.

Definition idLe (a b : Row) : Prop := field "id" a ≤ field "id" b.

#[global] Instance idLe_dec : RelDecision idLe.
Proof. intros a b. unfold idLe. apply _. Defined.

Definition byIdAsc (rows : list Row) : list Row := merge_sort idLe rows.

Definition ordered (o : option OrderBy) (rows : list Row) : list Row :=
  match o with
  | None => rows
  | Some IdAsc => byIdAsc rows
  | Some IdDesc => reverse (byIdAsc rows)
  end.

(** [LIMIT n]: a negative limit lifts the limit. *)
Definition limited (limit : option Z) (rows : list Row) : list Row :=
  match limit with
  | None => rows
  | Some n => if n <? 0 then rows else take (Z.to_nat n) rows
  end.

Inductive Result (A : Type) :=
  | Ok (a : A)
  | Err.
Arguments Ok {A} a.
Arguments Err {A}.

(** [db.Find(&messages)] *)
Definition Find (q : Query) : Result (list Row) :=
  if driverError (qDb q) then Err
  else Ok (limited (qLimit q)
             (ordered (qOrder q) (List.filter (selects q) (table (qDb q))))).

(** The outcome of a statement that fetches one row:
    [gorm.ErrRecordNotFound] is told apart from the other errors. *)
Inductive One :=
  | Found (r : Row)
  | ErrRecordNotFound
  | Failed.

Definition one (rows : list Row) : One :=
  match rows with
  | r :: _ => Found r
  | [] => ErrRecordNotFound
  end.

(** [db.Last(&message)]: the last row by primary key. *)
Definition Last (q : Query) : One :=
  if driverError (qDb q) then Failed
  else one (reverse (byIdAsc (List.filter (selects q) (table (qDb q))))).

(** [db.First(&message)]: the first row in the order of the statement, by
    primary key where the statement has no order. *)
Definition First (q : Query) : One :=
  if driverError (qDb q) then Failed
  else one (ordered (Some (default IdAsc (qOrder q)))
              (List.filter (selects q) (table (qDb q)))).

(** The assignment of an update, with the time stamp gorm adds. *)
Definition assign (updates : list (string * Z)) (now : Z) (r : Row) : Row :=
  <["updated_at"%string := VInt now]>
    (foldr (λ cv acc, <[cv.1 := VInt cv.2]> acc) r updates).

(** [db.Updates(map)] and [db.Update(column, value)]: the error of the
    statement, and the table after it. *)
Definition Updates (updates : list (string * Z)) (now : Z) (q : Query) :
    bool * DB :=
  if driverError (qDb q) then (true, qDb q)
  else (false,
        mkDB ((λ r, if selects q r then assign updates now r else r)
                <$> table (qDb q))
          false).

Definition Update (column : string) (value : Z) (now : Z) (q : Query) : bool * DB :=
  Updates [(column, value)] now q.

End Gorm.

Module Orm.
Import Gorm.

Class OrmConsts := {
  BlockStatusTypeInvalid : Z;
  BlockStatusTypeValid : Z;
  CheckStatusUnchecked : Z;
  CheckStatusChecked : Z;
}.

Section Orm.
Context {K : TypesConsts} {O : OrmConsts}.

Local Open Scope string_scope.
Local Open Scope Z_scope.

(** [GetUncheckedAndDoubleLayerValidGatewayMessageMatchs] *)
Definition GetUncheckedAndDoubleLayerValidGatewayMessageMatchs (m : DB)
    (limit : Z) : Result (list Row) :=
  let db := WithContext m in
  let db := Where (colEq "l1_block_status" BlockStatusTypeValid) db in
  let db := Where (colEq "l2_block_status" BlockStatusTypeValid) db in
  let db := Where (colEq "check_status" CheckStatusUnchecked) db in
  let db := Order IdAsc db in
  let db := Limit limit db in
  Find db.

(** The tail of the three [GetLatest...] functions: an error other than
    [ErrRecordNotFound] is returned, [ErrRecordNotFound] gives [nil, nil]. *)
Definition latestOf (o : One) : Result (option Row) :=
  match o with
  | Failed => Err
  | ErrRecordNotFound => Ok None
  | Found message => Ok (Some message)
  end.

(** [GetLatestBlockValidMessageMatch] *)
Definition GetLatestBlockValidMessageMatch (m : DB) (layer : LayerType) :
    Result (option Row) :=
  let db := WithContext m in
  let db :=
    match layer with
    | Layer1 => Where (colEq "l1_block_status" BlockStatusTypeValid) db
    | Layer2 => Where (colEq "l2_block_status" BlockStatusTypeValid) db
    end in
  latestOf (Last db).

(** [GetLatestDoubleLayerValidMessageMatch] *)
Definition GetLatestDoubleLayerValidMessageMatch (m : DB) : Result (option Row) :=
  let db := WithContext m in
  let db := Where (colEq "l1_block_status" BlockStatusTypeValid) db in
  let db := Where (colEq "l2_block_status" BlockStatusTypeValid) db in
  latestOf (Last db).

(** [GetLatestValidETHBalanceMessageMatch] *)
Definition GetLatestValidETHBalanceMessageMatch (m : DB) (layer : LayerType) :
    Result (option Row) :=
  let db := WithContext m in
  let db :=
    match layer with
    | Layer1 => Where (colEq "l1_eth_balance_status" ETHBalanceStatusTypeValid) db
    | Layer2 => Where (colEq "l2_eth_balance_status" ETHBalanceStatusTypeValid) db
    end in
  latestOf (Last db).

(** [GetLargestMessageNonceL2MessageMatch]: here [ErrRecordNotFound] is
    tested first. *)
Definition GetLargestMessageNonceL2MessageMatch (m : DB) : Result (option Row) :=
  let db := WithContext m in
  let db := Where (colGt "message_nonce" 0) db in
  let db := Order IdDesc db in
  match First db with
  | ErrRecordNotFound => Ok None
  | Failed => Err
  | Found message => Ok (Some message)
  end.

(** The column list of [InsertOrUpdateETHEventInfo] (lines 232-247): the
    columns the upsert overwrites when the message hash is already in the
    table. *)
Definition ethEventColumns (message : Row) : list string :=
  let columns := [] in
  let columns :=
    if negb (field "l1_event_type" message =? 0)
       && (field "l1_event_type" message =? L1SentMessage)
    then (columns ++ ["l1_event_type"; "l1_block_number"; "l1_tx_hash";
                     "l1_token_ids"; "l1_amounts"; "l2_amounts"])%list
    else columns in
  let columns :=
    if negb (field "l1_event_type" message =? 0)
       && (field "l1_event_type" message =? L1RelayedMessage)
    then (columns ++ ["l1_event_type"; "l1_block_number"; "l1_tx_hash";
                     "l1_token_ids"])%list
    else columns in
  let columns :=
    if negb (field "l2_event_type" message =? 0)
       && (field "l2_event_type" message =? L2SentMessage)
    then (columns ++ ["l2_event_type"; "l2_block_number"; "l2_tx_hash";
                     "l2_token_ids"; "l1_amounts"; "l2_amounts"])%list
    else columns in
  if negb (field "l2_event_type" message =? 0)
     && (field "l2_event_type" message =? L2RelayedMessage)
  then (columns ++ ["l2_event_type"; "l2_block_number"; "l2_tx_hash";
                   "l2_token_ids"])%list
  else columns.

(** [UpdateBlockStatus]: the error it returns and the table after it. *)
Definition UpdateBlockStatus (m : DB) (now : Z) (layer : LayerType)
    (startBlockNumber endBlockNumber : Z) : bool * DB :=
  let db := WithContext m in
  let db := Model db in
  match layer with
  | Layer1 =>
      let db := Where (colEq "l1_block_status" BlockStatusTypeInvalid) db in
      let db := Where (λ r, colGe "l1_block_number" startBlockNumber r
                            && colLe "l1_block_number" endBlockNumber r) db in
      Update "l1_block_status" BlockStatusTypeValid now db
  | Layer2 =>
      let db := Where (colEq "l2_block_status" BlockStatusTypeInvalid) db in
      let db := Where (λ r, colGe "l2_block_number" startBlockNumber r
                            && colLe "l2_block_number" endBlockNumber r) db in
      Update "l2_block_status" BlockStatusTypeValid now db
  end.

(** [UpdateCrossChainStatus] *)
Definition UpdateCrossChainStatus (m : DB) (now : Z) (id : list Z)
    (layerType : LayerType) (status : Z) : bool * DB :=
  let db := WithContext m in
  let db := Model db in
  let db := Where (colIn "id" id) db in
  match layerType with
  | Layer1 =>
      Updates [("l1_cross_chain_status", status);
               ("check_status", CheckStatusChecked)] now db
  | Layer2 =>
      Updates [("l2_cross_chain_status", status);
               ("check_status", CheckStatusChecked)] now db
  end.

End Orm.
End Orm.

(** * Vocabulary of the properties *)

Section Vocabulary.
Context {K : TypesConsts}.

(** The event constants of a layer. *)
Definition sentMessageOf (layer : LayerType) : Z :=
  match layer with
  | Layer1 => L1SentMessage
  | Layer2 => L2SentMessage
  end.

Definition relayedMessageOf (layer : LayerType) : Z :=
  match layer with
  | Layer1 => L1RelayedMessage
  | Layer2 => L2RelayedMessage
  end.

(** The delta rule of the data model, stated from the specification: a
    [SentMessage] row of the checked layer contributes [+amount], a
    [RelayedMessage] row [-amount], any other row nothing. *)
Definition signedDelta (layer : LayerType) (m : MessengerMessageMatch)
    (amount : Z) : Z :=
  if eventTypeOf layer m =? sentMessageOf layer then amount
  else if eventTypeOf layer m =? relayedMessageOf layer then - amount
  else 0.

(** The delta of a row; a row whose amount does not decode has none, and
    [0] stands in for it. *)
Definition deltaOf (layer : LayerType) (m : MessengerMessageMatch) : Z :=
  match SetString (ETHAmount m) with
  | Some amount => signedDelta layer m amount
  | None => 0
  end.

(** The amount of the row is a base-10 integer. *)
Definition decodable (m : MessengerMessageMatch) : Prop :=
  is_Some (SetString (ETHAmount m)).

(** [Σ(delta)] over a window. *)
Definition sumDeltas (layer : LayerType) (ms : list MessengerMessageMatch) : Z :=
  foldr (λ m acc, deltaOf layer m + acc) 0 ms.

(** The sum of the deltas of the rows selected by [P]. *)
Definition sumWhere (P : MessengerMessageMatch → bool) (layer : LayerType)
    (ms : list MessengerMessageMatch) : Z :=
  foldr (λ m acc, (if P m then deltaOf layer m else 0) + acc) 0 ms.

(** The net signed delta of the rows of block [b]. *)
Definition blockDelta (layer : LayerType) (ms : list MessengerMessageMatch)
    (b : Z) : Z :=
  sumWhere (λ m, blockNumberOf layer m =? b) layer ms.

(** The net signed delta of the rows of the blocks before [b]. *)
Definition deltaBefore (layer : LayerType) (ms : list MessengerMessageMatch)
    (b : Z) : Z :=
  sumWhere (λ m, blockNumberOf layer m <? b) layer ms.

(** The net signed delta of the rows of the blocks up to and including
    [b]. *)
Definition deltaUpTo (layer : LayerType) (ms : list MessengerMessageMatch)
    (b : Z) : Z :=
  sumWhere (λ m, blockNumberOf layer m <=? b) layer ms.

(** The running balance of the data model for a row of block [b]: the
    balance immediately before the block plus the net delta of the block. *)
Definition runningBalance (layer : LayerType) (startBalance : Z)
    (ms : list MessengerMessageMatch) (b : Z) : Z :=
  (startBalance + deltaBefore layer ms b) + blockDelta layer ms b.

(** The order of a window: ascending block numbers. *)
Definition blockLe (layer : LayerType) (a b : MessengerMessageMatch) : Prop :=
  blockNumberOf layer a ≤ blockNumberOf layer b.

(** A row is resolved for the selector when its ETH amount status is set. *)
Definition resolved (m : MessengerMessageMatch) : Prop :=
  ETHAmountStatus m = ETHAmountStatusTypeSet.

(** What a committed transaction leaves in the table: every update of the
    commit set written, in order. *)
Definition applyAll (layer : LayerType) (updates : list MessengerMessageMatch)
    (store : gmap Z MessengerMessageMatch) : gmap Z MessengerMessageMatch :=
  foldl (λ d u, alter (writeETHBalance layer u) (ID u) d) store updates.

(** The table with the given rows. *)
Definition storeOf (rows : list MessengerMessageMatch) : gmap Z MessengerMessageMatch :=
  list_to_map ((λ m, (ID m, m)) <$> rows).

(** The node of a layer: its answer to the [n]-th balance query. *)
Definition clientBalanceAt (c : LogicMessengerCrossChain) (layer : LayerType) :
    nat → Z → option Z :=
  match layer with
  | Layer1 => l1ClientBalanceAt c
  | Layer2 => l2ClientBalanceAt c
  end.

(** The indices at which the second loop queries a balance: the last row of
    each block. *)
Definition isBoundary (layer : LayerType) (messages : list MessengerMessageMatch)
    (i : nat) : bool :=
  match messages !! i with
  | Some _ => negb (sameBlockAsNext layer messages i)
  | None => false
  end.

(** The boundaries among the given indices, and the block of a row by its
    index. *)
Definition boundariesIn (layer : LayerType) (messages : list MessengerMessageMatch)
    (indices : list nat) : list nat :=
  List.filter (isBoundary layer messages) indices.

Definition blockNumberAt (layer : LayerType) (messages : list MessengerMessageMatch)
    (i : nat) : Z :=
  match messages !! i with
  | Some m => blockNumberOf layer m
  | None => 0
  end.

(** The alert a failed sub-range check produces for its boundary row. *)
Definition alertOf (boundary : MessengerMessageMatch) (r : CheckResult) : Alert :=
  match r with
  | CheckDone _ expectedEndBalance actualBalance =>
      mkAlert boundary (Some expectedEndBalance) (Some actualBalance)
  | CheckError _ => mkAlert boundary None None
  end.



(** The part of the anchor row's block that a sub-range starting at index
    [startIndex] contains: the net delta of the rows of that block from the
    anchor row on. *)
Definition anchorOverlap (layer : LayerType) (ms : list MessengerMessageMatch)
    (startIndex : nat) : Z :=
  match ms !! startIndex with
  | Some anchorRow =>
      sumWhere (λ m, blockNumberOf layer m =? blockNumberOf layer anchorRow)
        layer (drop startIndex ms)
  | None => 0
  end.

End Vocabulary.

(** ** Vocabulary for the store *)

Section StoreVocabulary.
Context {K : TypesConsts} {O : Orm.OrmConsts}.

(** The block status and block number columns of a layer. *)
Definition blockStatusColumn (layer : LayerType) : string :=
  match layer with
  | Layer1 => "l1_block_status"
  | Layer2 => "l2_block_status"
  end.

Definition blockNumberColumn (layer : LayerType) : string :=
  match layer with
  | Layer1 => "l1_block_number"
  | Layer2 => "l2_block_number"
  end.

Definition crossChainStatusColumn (layer : LayerType) : string :=
  match layer with
  | Layer1 => "l1_cross_chain_status"
  | Layer2 => "l2_cross_chain_status"
  end.

Definition ethBalanceStatusColumn (layer : LayerType) : string :=
  match layer with
  | Layer1 => "l1_eth_balance_status"
  | Layer2 => "l2_eth_balance_status"
  end.

(** A live row of the layer whose block status is invalid and whose block
    number lies in the closed range. *)
Definition pendingIn (layer : LayerType) (startBlockNumber endBlockNumber : Z)
    (r : Gorm.Row) : bool :=
  Gorm.visible r
  && Gorm.colEq (blockStatusColumn layer) Orm.BlockStatusTypeInvalid r
  && Gorm.colGe (blockNumberColumn layer) startBlockNumber r
  && Gorm.colLe (blockNumberColumn layer) endBlockNumber r.

(** A live row whose id is one of [ids]. *)
Definition namedBy (ids : list Z) (r : Gorm.Row) : bool :=
  Gorm.visible r && Gorm.colIn "id" ids r.

(** A live row whose column [col] holds [v]. *)
Definition liveWith (col : string) (v : Z) (r : Gorm.Row) : bool :=
  Gorm.visible r && Gorm.colEq col v r.

(** A live row that is valid on both layers and not yet checked. *)
Definition readyForCheck (r : Gorm.Row) : bool :=
  Gorm.visible r
  && Gorm.colEq "l1_block_status" Orm.BlockStatusTypeValid r
  && Gorm.colEq "l2_block_status" Orm.BlockStatusTypeValid r
  && Gorm.colEq "check_status" Orm.CheckStatusUnchecked r.

(** The message carries the event [event] in the event-type field [col]. *)
Definition hasEvent (col : string) (event : Z) (message : Gorm.Row) : bool :=
  negb (Gorm.field col message =? 0) && (Gorm.field col message =? event).

(** What a "latest row" function returns for the rows selected by [p]: the
    selected row with the greatest id, nothing when no row is selected, an
    error exactly when the driver fails. *)
Definition newestWhere (p : Gorm.Row → bool) (m : Gorm.DB)
    (res : Gorm.Result (option Gorm.Row)) : Prop :=
  match res with
  | Gorm.Ok (Some r) =>
      Gorm.driverError m = false
      ∧ r ∈ Gorm.table m
      ∧ p r = true
      ∧ ∀ x, x ∈ Gorm.table m → p x = true →
             Gorm.field "id" x ≤ Gorm.field "id" r
  | Gorm.Ok None =>
      Gorm.driverError m = false
      ∧ ∀ x, x ∈ Gorm.table m → p x = false
  | Gorm.Err => Gorm.driverError m = true
  end.

(** A live row with a positive message nonce. *)
Definition carriesNonce (r : Gorm.Row) : bool :=
  Gorm.visible r && Gorm.colGt "message_nonce" 0 r.

(** Among the rows that carry a nonce, the nonce grows with the id. *)
Definition noncesGrowWithId (m : Gorm.DB) : Prop :=
  ∀ x y, x ∈ Gorm.table m → y ∈ Gorm.table m →
    carriesNonce x = true → carriesNonce y = true →
    Gorm.field "id" x ≤ Gorm.field "id" y →
    Gorm.field "message_nonce" x ≤ Gorm.field "message_nonce" y.

(** The event columns of each layer, and the amount columns. *)
Definition l1EventColumns : list string :=
  ["l1_event_type"; "l1_block_number"; "l1_tx_hash"; "l1_token_ids"]%string.

Definition l2EventColumns : list string :=
  ["l2_event_type"; "l2_block_number"; "l2_tx_hash"; "l2_token_ids"]%string.

Definition amountColumns : list string := ["l1_amounts"; "l2_amounts"]%string.

End StoreVocabulary.

(** ** Scenarios *)

(** A choice of the store's status constants. *)
Definition sampleOrmConsts : Orm.OrmConsts :=
  {| Orm.BlockStatusTypeInvalid := 1; Orm.BlockStatusTypeValid := 2;
     Orm.CheckStatusUnchecked := 1; Orm.CheckStatusChecked := 2 |}.

(** A live row of [message_match]: id, block status and block number on
    both layers, check status, message nonce. *)
Definition storeRow (id l1Status l1Block l2Status l2Block check nonce : Z) :
    Gorm.Row :=
  list_to_map
    [("id"%string, Gorm.VInt id);
     ("l1_block_status"%string, Gorm.VInt l1Status);
     ("l1_block_number"%string, Gorm.VInt l1Block);
     ("l2_block_status"%string, Gorm.VInt l2Status);
     ("l2_block_number"%string, Gorm.VInt l2Block);
     ("check_status"%string, Gorm.VInt check);
     ("message_nonce"%string, Gorm.VInt nonce);
     ("deleted_at"%string, Gorm.VNull)].

Definition sampleStore : Gorm.DB :=
  Gorm.mkDB
    [storeRow 3 2 30 2 7 1 0; storeRow 1 1 10 2 5 1 4; storeRow 2 2 20 1 6 1 9]
    false.

(** A choice of constants. *)
Definition sampleConsts : TypesConsts :=
  {| L1SentMessage := 1; L1RelayedMessage := 2;
     L2SentMessage := 3; L2RelayedMessage := 4;
     ETHAmountStatusTypeSet := 2; ETHBalanceStatusTypeValid := 2 |}.

(** An unchecked layer-1 row: id, event type, block number, amount. *)
Definition l1Row (id ev blk : Z) (amount : string) : MessengerMessageMatch :=
  mkMessengerMessageMatch id ev blk 0 0 amount 2 0 1 0 1.

(** Scenario A: a sent row of 30 at block 10 and a relayed row of 20 at
    block 12. *)
Definition scenarioA : list MessengerMessageMatch :=
  [l1Row 1 1 10 "30"; l1Row 2 2 12 "20"].

(** The window of scenario C with a third row at block 12. *)
Definition scenarioC : list MessengerMessageMatch :=
  [l1Row 1 1 10 "30"; l1Row 2 1 10 "5"; l1Row 3 2 12 "20"].

(** A validated layer-1 window that starts at block 0. *)
Definition genesisWindow : list MessengerMessageMatch :=
  [l1Row 1 1 0 "30"; l1Row 2 1 5 "5"].

(** A layer-1 row whose ETH amount status is not set. *)
Definition unresolvedRow (K : TypesConsts) (id blk : Z) : MessengerMessageMatch :=
  mkMessengerMessageMatch id L1SentMessage blk 0 0 "1"
    (ETHAmountStatusTypeSet + 1) 0 0 0 0.

(** A receiver whose nodes answer no query and whose database never fails. *)
Definition quietLogic : LogicMessengerCrossChain :=
  mkLogic (λ _ _, None) (λ _ _, None) None None 0
    (λ _ _, Some None) (λ _ _ _, Some []) (λ _ _ _ _, Some []) (λ _ _, false).

(** A layer-1 node that fails its first two balance queries and answers 90
    from then on. *)
Definition recoveringLogic : LogicMessengerCrossChain :=
  mkLogic (λ n _, if (n <? 2)%nat then None else Some 90) (λ _ _, None)
    None None 0
    (λ _ _, Some None) (λ _ _ _, Some []) (λ _ _ _ _, Some []) (λ _ _, false).

(** Scenario B: the window of scenario A, a layer-1 node that reports 130
    at block 10 and 90 at block 12. *)
Definition scenarioBLogic : LogicMessengerCrossChain :=
  mkLogic
    (λ _ blockNumber,
       if blockNumber =? 12 then Some 90
       else if blockNumber =? 10 then Some 130 else None)
    (λ _ _, None) None None 0
    (λ _ _, Some None) (λ _ _ _, Some []) (λ _ _ _ _, Some []) (λ _ _, false).

(** Scenario A: a layer-1 node that reports 110 at block 12, head at
    block 20. *)
Definition scenarioALogic : LogicMessengerCrossChain :=
  mkLogic (λ _ blockNumber, if blockNumber =? 12 then Some 110 else None)
    (λ _ _, None) (Some 20) None 100
    (λ _ _, Some None) (λ _ _ _, Some scenarioA) (λ _ _ _ _, Some scenarioA)
    (λ _ _, false).

(** A store with the rows of scenario A, all unchecked, and a layer-1 head
    at block 100. *)
Definition staleLogic : LogicMessengerCrossChain :=
  mkLogic (λ _ _, Some 0) (λ _ _, None) (Some 100) None 100
    (λ _ _, Some None) (λ _ _ _, Some scenarioA) (λ _ _ _ _, Some scenarioA)
    (λ _ _, false).

(** A receiver whose store cannot serve a block range. *)
Definition rangelessLogic : LogicMessengerCrossChain :=
  mkLogic (λ _ _, Some 7) (λ _ _, Some 7) (Some 100) (Some 100) 100
    (λ _ _, Some None) (λ _ _ _, Some scenarioA) (λ _ _ _ _, None)
    (λ _ _, false).

(** Scenario A on a consistent ledger with balance 100 before the window:
    the node reports 130 at block 10 and 110 at block 12, and the bisector
    still alerts at block 12, expecting 140. *)
Definition consistentLogic : LogicMessengerCrossChain :=
  mkLogic
    (λ _ blockNumber,
       if blockNumber =? 12 then Some 110
       else if blockNumber =? 10 then Some 130 else None)
    (λ _ _, None) None None 0
    (λ _ _, Some None) (λ _ _ _, Some []) (λ _ _ _ _, Some []) (λ _ _, false).

(** * Properties *)

(** ** The delta rule in the aggregate check *)

Section Deltas.
Context {K : TypesConsts}.

Lemma sumDeltas_app layer ms1 ms2 :
  sumDeltas layer (ms1 ++ ms2) = sumDeltas layer ms1 + sumDeltas layer ms2.
Proof.
  induction ms1 as [|m ms1 IH]; simpl; [done|]. rewrite IH. lia.
Qed.

Lemma distinct_events_layer layer :
  distinct_events K → sentMessageOf layer ≠ relayedMessageOf layer.
Proof. intros [H1 H2]. by destruct layer. Qed.

Lemma applyEvent_signedDelta layer m acc amount :
  distinct_events K →
  applyEvent layer m acc amount = acc + signedDelta layer m amount.
Proof.
  intros HK. pose proof (distinct_events_layer layer HK) as Hne.
  unfold applyEvent, signedDelta.
  destruct layer; simpl in *;
    repeat match goal with
           | |- context [?a =? ?b] => destruct (Z.eqb_spec a b)
           end; lia.
Qed.


Lemma balanceDiffLoop_decodable layer acc ms :
  distinct_events K →
  Forall decodable ms →
  balanceDiffLoop layer acc ms = inl (acc + sumDeltas layer ms).
Proof.
  intros HK Hdec. revert acc.
  induction Hdec as [|m ms [amount Ham] _ IH]; intros acc; simpl.
  - f_equal. lia.
  - unfold deltaOf. rewrite Ham, IH, applyEvent_signedDelta by done.
    f_equal. lia.
Qed.

Lemma balanceDiffLoop_undecodable layer acc ms :
  ¬ Forall decodable ms →
  ∃ id, balanceDiffLoop layer acc ms = inr id.
Proof.
  revert acc. induction ms as [|m ms IH]; intros acc Hnot.
  - destruct Hnot. constructor.
  - simpl. destruct (SetString (ETHAmount m)) as [amount|] eqn:Ham; [|by eexists].
    apply IH. intros Hall. apply Hnot. constructor; [|done].
    unfold decodable. by rewrite Ham.
Qed.

Lemma balanceDiffLoop_inl layer acc ms d :
  balanceDiffLoop layer acc ms = inl d → Forall decodable ms.
Proof.
  revert acc. induction ms as [|m ms IH]; intros acc; simpl; [by constructor|].
  destruct (SetString (ETHAmount m)) as [amount|] eqn:Ham; [|done].
  intros H. constructor; [unfold decodable; by rewrite Ham | by eapply IH].
Qed.

(** On a decodable window the check compares
    [startBalance + Σ(delta)] with the end balance. *)
Lemma checkBalance_decodable layer startBalance endBalance messages :
  distinct_events K →
  Forall decodable messages →
  checkBalance layer (Some startBalance) endBalance messages
  = Done (CheckDone (startBalance + sumDeltas layer messages =? endBalance)
            (startBalance + sumDeltas layer messages) endBalance).
Proof.
  intros HK Hall. unfold checkBalance.
  rewrite (balanceDiffLoop_decodable layer 0 messages HK Hall).
  rewrite Z.add_0_l. by destruct (_ =? _).
Qed.

#[global] Instance decodable_dec m : Decision (decodable m).
Proof. unfold decodable. apply _. Defined.

End Deltas.

Lemma sampleConsts_distinct : distinct_events sampleConsts.
Proof. split; simpl; lia. Qed.

(** ** The aggregate check *)

(** C2. For every window and start balance the aggregate check computes
    [expectedEnd = startBalance + Σ(delta)], a sent row counting [+amount]
    and a relayed row [-amount], and its verdict is [true] exactly when
    [expectedEnd] equals the queried balance; a window with an amount that
    does not decode is never valid. *)
Theorem checkBalance_aggregate (K : TypesConsts) (layer : LayerType)
    (startBalance endBalance : Z) (messages : list MessengerMessageMatch) :
  distinct_events K →
  (Forall decodable messages →
     checkBalance layer (Some startBalance) endBalance messages
     = Done (CheckDone (startBalance + sumDeltas layer messages =? endBalance)
               (startBalance + sumDeltas layer messages) endBalance))
  ∧ (∃ r, checkBalance layer (Some startBalance) endBalance messages = Done r
          ∧ (checkOk r = true ↔
               Forall decodable messages
               ∧ startBalance + sumDeltas layer messages = endBalance)).
Proof.
  intros HK.
  pose proof (checkBalance_decodable layer startBalance endBalance messages HK)
    as Hdec.
  split; [done|].
  destruct (decide (Forall decodable messages)) as [Hall|Hnot].
  - eexists. split; [by apply Hdec|]. simpl. rewrite Z.eqb_eq. tauto.
  - destruct (balanceDiffLoop_undecodable layer 0 messages Hnot) as [id Hid].
    exists (CheckError id). split.
    + unfold checkBalance. by rewrite Hid.
    + simpl. split; [done | by intros [? _]].
Qed.

(** Scenario A: start 100, sent 30 at block 10, relayed 20 at block 12,
    balance 110 at block 12. *)
Lemma checkBalance_aggregate_witness :
  distinct_events sampleConsts
  ∧ checkBalance (K := sampleConsts) Layer1 (Some 100) 110 scenarioA
    = Done (CheckDone true 110 110).
Proof.
  split; [exact sampleConsts_distinct|].
  destruct (checkBalance_aggregate sampleConsts Layer1 100 110 scenarioA
              sampleConsts_distinct) as [H _].
  rewrite H; [reflexivity|].
  repeat constructor; unfold decodable; simpl; eauto.
Defined.

(** ** Window selection *)

Section Selector.
Context {K : TypesConsts}.

(** The first loop stops at the first unresolved row of the span. *)
Lemma findTruncateBlockNumber_first_unresolved layer pre m suf :
  Forall resolved pre → ¬ resolved m →
  findTruncateBlockNumber layer (pre ++ m :: suf) = blockNumberOf layer m.
Proof.
  intros Hpre Hm. induction Hpre as [|x pre Hx _ IH]; simpl.
  - destruct (Z.eqb_spec (ETHAmountStatus m) ETHAmountStatusTypeSet); [done|].
    reflexivity.
  - destruct (Z.eqb_spec (ETHAmountStatus x) ETHAmountStatusTypeSet); [|done].
    exact IH.
Qed.

Lemma findTruncateBlockNumber_all_resolved layer ms :
  Forall resolved ms → findTruncateBlockNumber layer ms = 0.
Proof.
  induction 1 as [|x ms Hx _ IH]; simpl; [done|].
  by destruct (Z.eqb_spec (ETHAmountStatus x) ETHAmountStatusTypeSet).
Qed.

(** With the truncation block at its zero value the second loop keeps every
    row. *)
Lemma truncateLoop_zero layer ms : truncateLoop layer 0 ms = ms.
Proof. induction ms as [|m ms IH]; simpl; [done|]. by rewrite IH. Qed.

(** With any other truncation block it keeps the rows strictly below it. *)
Lemma truncateLoop_nonzero layer tb ms :
  tb ≠ 0 →
  truncateLoop layer tb ms = List.filter (λ m, blockNumberOf layer m <? tb) ms.
Proof.
  intros Htb. induction ms as [|m ms IH]; simpl; [done|].
  destruct (Z.eqb_spec tb 0); [done|]. rewrite IH.
  by destruct (blockNumberOf layer m <? tb).
Qed.

(** The window the selector returns when the first unresolved row of the
    span is not at block 0: the rows whose block is strictly below that
    row's block, and nothing else. *)
Lemma truncatedMessageMatches_below layer pre m suf :
  Forall resolved pre → ¬ resolved m → blockNumberOf layer m ≠ 0 →
  truncatedMessageMatches layer (pre ++ m :: suf)
  = List.filter (λ x, blockNumberOf layer x <? blockNumberOf layer m)
      (pre ++ m :: suf).
Proof.
  intros Hpre Hm Hnz. unfold truncatedMessageMatches.
  rewrite (findTruncateBlockNumber_first_unresolved layer pre m suf Hpre Hm).
  by apply truncateLoop_nonzero.
Qed.

(** When it is at block 0 the truncation block coincides with the value that
    means "nothing to truncate", and the whole span is returned. *)
Lemma truncatedMessageMatches_block_zero layer pre m suf :
  Forall resolved pre → ¬ resolved m → blockNumberOf layer m = 0 →
  truncatedMessageMatches layer (pre ++ m :: suf) = pre ++ m :: suf.
Proof.
  intros Hpre Hm Hz. unfold truncatedMessageMatches.
  rewrite (findTruncateBlockNumber_first_unresolved layer pre m suf Hpre Hm), Hz.
  apply truncateLoop_zero.
Qed.

End Selector.

(** C4. The selector is meant to keep only the rows whose block is strictly
    below the block of the first unresolved row of the span.  For a span
    whose first unresolved row sits at block 0 it keeps the whole span:
    here both the unresolved row at block 0 and the row at block 5 behind
    it are returned, where no row at all has a block below 0. *)
Theorem selector_keeps_span_at_block_zero (K : TypesConsts) :
  let span := [unresolvedRow K 1 0; unresolvedRow K 2 5] in
  ¬ resolved (unresolvedRow K 1 0)
  ∧ findTruncateBlockNumber Layer1 span = 0
  ∧ truncatedMessageMatches Layer1 span = span
  ∧ List.filter (λ x, blockNumberOf Layer1 x <? 0) span = [].
Proof.
  intros span.
  assert (Hun : ¬ resolved (unresolvedRow K 1 0)).
  { unfold resolved; simpl. lia. }
  split; [done|].
  split; [exact (findTruncateBlockNumber_first_unresolved Layer1 [] _ _
                   (Forall_nil_2 _) Hun)|].
  split; [|reflexivity].
  exact (truncatedMessageMatches_block_zero Layer1 [] _ _ (Forall_nil_2 _) Hun eq_refl).
Qed.

(** ** The commit *)

Section Commit.
Context {K : TypesConsts}.
Implicit Types (c : LogicMessengerCrossChain) (w : World).

(** The update loop calls [UpdateETHBalance] on a prefix of the commit set
    and touches no other history. *)
Lemma updateLoop_calls c layer updates w :
  ∃ k, updateCalls (updateLoop c layer updates w).2
         = updateCalls w ++ take k updates
       ∧ oracleCalls (updateLoop c layer updates w).2 = oracleCalls w
       ∧ alerts (updateLoop c layer updates w).2 = alerts w.
Proof.
  revert w. induction updates as [|u us IH]; intros w.
  - exists 0%nat. simpl. by rewrite app_nil_r.
  - simpl. unfold bind, UpdateETHBalance.
    destruct (updateFails c (length (updateCalls w)) u).
    + exists 1%nat. simpl. by rewrite take_0.
    + match goal with |- context [updateLoop c layer us ?w1] =>
        destruct (IH w1) as (k & Hk & Ho & Ha) end.
      exists (S k). rewrite Hk, Ho, Ha. simpl. by rewrite <- app_assoc.
Qed.

(** When no row update fails the loop reports no error and every update is
    written. *)
Lemma updateLoop_ok c layer updates w :
  (∀ j u, updates !! j = Some u →
          updateFails c (length (updateCalls w) + j) u = false) →
  (updateLoop c layer updates w).1 = Done false
  ∧ db (updateLoop c layer updates w).2 = applyAll layer updates (db w).
Proof.
  revert w. induction updates as [|u us IH]; intros w Hok; [done|].
  simpl. unfold bind, UpdateETHBalance.
  pose proof (Hok 0%nat u eq_refl) as H0. rewrite Nat.add_0_r in H0. rewrite H0.
  match goal with |- context [updateLoop c layer us ?w1] =>
    destruct (IH w1) as [H1 H2] end; [|by rewrite H1, H2].
  intros j u' Hj. simpl. rewrite length_app. simpl.
  replace (length (updateCalls w) + 1 + j)%nat
    with (length (updateCalls w) + S j)%nat by lia.
  by apply Hok.
Qed.


Lemma updateLoop_done c layer updates w :
  ∃ err, (updateLoop c layer updates w).1 = Done err.
Proof.
  revert w. induction updates as [|u us IH]; intros w; [by eexists|].
  simpl. unfold bind, UpdateETHBalance.
  destruct (updateFails c (length (updateCalls w)) u); [by eexists|]. apply IH.
Qed.

(** The transaction keeps the histories of its body and commits or restores
    the table as a whole. *)
Lemma Transaction_updateLoop c layer updates w :
  let r := Transaction (updateLoop c layer updates) w in
  updateCalls r.2 = updateCalls (updateLoop c layer updates w).2
  ∧ oracleCalls r.2 = oracleCalls w
  ∧ alerts r.2 = alerts w
  ∧ ((r.1 = Done false ∧ db r.2 = db (updateLoop c layer updates w).2
      ∧ (updateLoop c layer updates w).1 = Done false)
     ∨ (r.1 = Done true ∧ db r.2 = db w
        ∧ (updateLoop c layer updates w).1 = Done true)).
Proof.
  intros r. subst r. unfold Transaction.
  destruct (updateLoop_calls c layer updates w) as (k & _ & Ho & Ha).
  destruct (updateLoop_done c layer updates w) as [err Herr].
  destruct (updateLoop c layer updates w) as [o w1] eqn:Hrun.
  simpl in *. subst o. destruct err; simpl; auto 10.
Qed.

(** [computeBlockBalance] never panics and queries no balance. *)
Lemma computeBlockBalance_frame c layer messages startBalance w :
  (computeBlockBalance c layer messages startBalance w).1 = Done tt
  ∧ oracleCalls (computeBlockBalance c layer messages startBalance w).2 = oracleCalls w
  ∧ alerts (computeBlockBalance c layer messages startBalance w).2 = alerts w.
Proof.
  unfold computeBlockBalance.
  destruct (updateETHMessageMatches layer messages startBalance) as [us|]; [|done].
  unfold bind.
  destruct (Transaction_updateLoop c layer us w) as (_ & Ho & Ha & Hcases).
  destruct (Transaction (updateLoop c layer us) w) as [o w1]. simpl in *.
  destruct Hcases as [(-> & _)|(-> & _)]; done.
Qed.

(** The status column of a written row holds the balance of the update, not
    its status field. *)
Lemma writeETHBalance_status layerType messageMatch row :
  balanceStatusOf layerType (writeETHBalance layerType messageMatch row)
  = balanceOf layerType messageMatch
  ∧ balanceOf layerType (writeETHBalance layerType messageMatch row)
    = balanceOf layerType messageMatch.
Proof. by destruct layerType. Qed.

Lemma UpdateETHBalance_row c layerType messageMatch w row :
  db w !! ID messageMatch = Some row →
  updateFails c (length (updateCalls w)) messageMatch = false →
  db (UpdateETHBalance c layerType messageMatch w).2 !! ID messageMatch
  = Some (writeETHBalance layerType messageMatch row).
Proof.
  intros Hrow Hok. unfold UpdateETHBalance. rewrite Hok. simpl.
  by rewrite lookup_alter_eq, Hrow.
Qed.

End Commit.

(** C1. The engine is meant to write the constant [Valid] into the status
    column of every row it persists.  Scenario: layer 1, start balance 100,
    one unchecked sent row of amount 30 at block 10, no database failure.
    The commit set carries balance 130 and status [Valid]; the stored row
    ends with 130 in both the balance and the status column. *)
Theorem stored_status_receives_balance :
  let m := l1Row 1 1 10 "30" in
  let w := mkWorld (storeOf [m]) [] [] [] in
  let w' := (computeBlockBalance (K := sampleConsts) quietLogic Layer1 [m] 100 w).2 in
  updateETHMessageMatches (K := sampleConsts) Layer1 [m] 100
  = Some [balanceUpdate (K := sampleConsts) Layer1 1 130]
  ∧ L1ETHBalanceStatus (balanceUpdate (K := sampleConsts) Layer1 1 130)
    = @ETHBalanceStatusTypeValid sampleConsts
  ∧ L1MessengerETHBalance <$> db w' !! 1 = Some 130
  ∧ L1ETHBalanceStatus <$> db w' !! 1 = Some 130
  ∧ 130 ≠ @ETHBalanceStatusTypeValid sampleConsts.
Proof.
  intros m w w'. subst m w w'.
  split; [by vm_compute|].
  split; [reflexivity|].
  split; [by vm_compute|].
  split; [by vm_compute|].
  simpl. lia.
Qed.

(** ** Order of the commit set *)

#[local] Instance idLe_trans : Transitive idLe.
Proof. intros a b c. unfold idLe. lia. Qed.

#[local] Instance idLe_total : Total idLe.
Proof. intros a b. unfold idLe. lia. Qed.

Lemma sortByID_sorted l : StronglySorted idLe (sortByID l).
Proof. apply StronglySorted_merge_sort; apply _. Qed.

Lemma sortByID_perm l : sortByID l ≡ₚ l.
Proof. apply merge_sort_Permutation. Qed.

Lemma StronglySorted_take_idLe (l : list MessengerMessageMatch) k :
  StronglySorted idLe l → StronglySorted idLe (take k l).
Proof.
  intros Hl. rewrite <- (take_drop k l) in Hl.
  by apply StronglySorted_app_1_l in Hl.
Qed.

(** In a list ordered by id, a row with a smaller id comes first. *)
Lemma StronglySorted_idLe_position (l : list MessengerMessageMatch) p q a b :
  StronglySorted idLe l →
  l !! p = Some a → l !! q = Some b → ID a < ID b → (p < q)%nat.
Proof.
  intros Hl. revert p q. induction Hl as [|x l Hl IH Hx]; intros p q Hp Hq Hlt.
  - by rewrite lookup_nil in Hp.
  - destruct p as [|p], q as [|q]; simplify_eq/=.
    + lia.
    + lia.
    + assert (idLe b a) as Hle.
      { rewrite Forall_forall in Hx. apply Hx.
        apply list_elem_of_lookup. eauto. }
      unfold idLe in Hle. lia.
    + apply -> Nat.succ_lt_mono. eauto.
Qed.

Section CommitOrder.
Context {K : TypesConsts}.
Implicit Types (c : LogicMessengerCrossChain) (w : World).

Lemma updateETHMessageMatches_sorted layer messages startBalance updates :
  updateETHMessageMatches layer messages startBalance = Some updates →
  StronglySorted idLe updates.
Proof.
  unfold updateETHMessageMatches.
  destruct (buildBlockNumberAmountMap layer ∅ messages); [|done].
  intros [= <-]. apply sortByID_sorted.
Qed.

(** The row updates [computeBlockBalance] issues are a prefix of its commit
    set. *)
Lemma computeBlockBalance_calls c layer messages startBalance w :
  ∃ applied,
    updateCalls (computeBlockBalance c layer messages startBalance w).2
    = updateCalls w ++ applied
    ∧ match updateETHMessageMatches layer messages startBalance with
      | None => applied = []
      | Some updates => ∃ k, applied = take k updates
      end.
Proof.
  unfold computeBlockBalance.
  destruct (updateETHMessageMatches layer messages startBalance) as [us|].
  - unfold bind.
    destruct (Transaction_updateLoop c layer us w) as (Hu & _).
    destruct (updateLoop_calls c layer us w) as (k & Hk & _).
    destruct (Transaction (updateLoop c layer us) w) as [[err|] w1]; simpl in *;
      exists (take k us); (split; [congruence | by exists k]).
  - exists []. simpl. by rewrite app_nil_r.
Qed.

End CommitOrder.

(** C5. The row updates of every commit are issued in ascending order of
    record id: the sequence of [UpdateETHBalance] calls made inside the
    transaction is ordered by id, so of two updates with ids [i < j] the one
    for [i] is applied first. *)
Theorem commit_in_ascending_id_order (K : TypesConsts)
    (c : LogicMessengerCrossChain) (layer : LayerType)
    (messages : list MessengerMessageMatch) (startBalance : Z) (w : World) :
  ∃ applied,
    updateCalls (computeBlockBalance c layer messages startBalance w).2
    = updateCalls w ++ applied
    ∧ StronglySorted idLe applied
    ∧ (∀ p q a b, applied !! p = Some a → applied !! q = Some b →
                  ID a < ID b → (p < q)%nat)
    ∧ match updateETHMessageMatches layer messages startBalance with
      | None => applied = []
      | Some updates => StronglySorted idLe updates ∧ ∃ k, applied = take k updates
      end.
Proof.
  destruct (computeBlockBalance_calls c layer messages startBalance w)
    as (applied & Hcalls & Hshape).
  assert (Hsorted : StronglySorted idLe applied).
  { destruct (updateETHMessageMatches layer messages startBalance) as [us|] eqn:Hus.
    - destruct Hshape as [k ->]. apply StronglySorted_take_idLe.
      by eapply updateETHMessageMatches_sorted.
    - subst applied. constructor. }
  exists applied. split; [done|]. split; [done|]. split.
  - intros p q a b. by apply StronglySorted_idLe_position.
  - destruct (updateETHMessageMatches layer messages startBalance) as [us|] eqn:Hus;
      [|done].
    split; [by eapply updateETHMessageMatches_sorted | done].
Qed.

(** ** Atomicity of the commit *)

Section Atomicity.
Context {K : TypesConsts}.
Implicit Types (c : LogicMessengerCrossChain) (w : World).

Lemma applyAll_cons layer u updates store :
  applyAll layer (u :: updates) store
  = applyAll layer updates (alter (writeETHBalance layer u) (ID u) store).
Proof. reflexivity. Qed.

Lemma applyAll_lookup_notin layer updates store id :
  id ∉ ID <$> updates → applyAll layer updates store !! id = store !! id.
Proof.
  revert store. induction updates as [|u us IH]; intros store Hid; [done|].
  rewrite fmap_cons, not_elem_of_cons in Hid. destruct Hid as [Hne Hid].
  rewrite applyAll_cons, IH by done.
  by rewrite lookup_alter_ne.
Qed.

(** After a committed transaction every row named by the commit set holds
    what its update wrote. *)
Lemma applyAll_lookup layer updates store u :
  NoDup (ID <$> updates) → u ∈ updates →
  applyAll layer updates store !! ID u
  = writeETHBalance layer u <$> store !! ID u.
Proof.
  revert store. induction updates as [|x us IH]; intros store Hnd Hin.
  - by apply elem_of_nil in Hin.
  - rewrite fmap_cons, NoDup_cons in Hnd. destruct Hnd as [Hx Hnd].
    rewrite applyAll_cons.
    apply elem_of_cons in Hin as [->|Hin].
    + rewrite applyAll_lookup_notin by done. apply lookup_alter_eq.
    + rewrite IH by done. rewrite lookup_alter_ne; [done|].
      intros Heq. apply Hx. rewrite Heq. by apply list_elem_of_fmap_2.
Qed.

End Atomicity.


(** ** The stale-block bypass *)

(** C7. On layer 1, a window whose end block lies more than [ethBalanceGap]
    blocks behind the chain head is sent straight to the per-block
    derivation with the given start balance, and no balance is queried for
    it. *)
Theorem stale_window_queries_no_balance (K : TypesConsts)
    (c : LogicMessengerCrossChain)
    (startBlockNumber endBlockNumber latestBlockNumber startBalance : Z)
    (messages : list MessengerMessageMatch) (w : World) :
  0 ≤ endBlockNumber →
  endBlockNumber + 50 < latestBlockNumber →
  latestBlockNumber < 2 ^ 64 →
  checkETH c Layer1 startBlockNumber endBlockNumber latestBlockNumber
    startBalance messages w
  = computeBlockBalance c Layer1 messages startBalance w
  ∧ oracleCalls
      (checkETH c Layer1 startBlockNumber endBlockNumber latestBlockNumber
         startBalance messages w).2
    = oracleCalls w.
Proof.
  intros Hnonneg Hgap Hlatest.
  assert (Hrun : checkETH c Layer1 startBlockNumber endBlockNumber
                   latestBlockNumber startBalance messages w
                 = computeBlockBalance c Layer1 messages startBalance w).
  { unfold checkETH, ethBalanceGap. simpl.
    rewrite Z.mod_small by lia.
    destruct (Z.ltb_spec (endBlockNumber + 50) latestBlockNumber); [done|lia]. }
  split; [done|]. rewrite Hrun.
  apply computeBlockBalance_frame.
Qed.

Lemma stale_window_queries_no_balance_witness :
  oracleCalls
    (checkETH (K := sampleConsts) quietLogic Layer1 10 12 100 100 scenarioA
       (mkWorld (storeOf scenarioA) [] [] [])).2
  = [].
Proof.
  apply (stale_window_queries_no_balance sampleConsts quietLogic 10 12 100 100
           scenarioA (mkWorld (storeOf scenarioA) [] [] [])); lia.
Defined.

(** ** The fallback bisector *)

Section Bisector.
Context {K : TypesConsts}.
Implicit Types (c : LogicMessengerCrossChain) (w : World).

Lemma BalanceAt_run c layer blockNumber w :
  BalanceAt c layer blockNumber w
  = (Done (clientBalanceAt c layer (length (oracleCalls w)) blockNumber),
     mkWorld (db w) (oracleCalls w ++ [(layer, blockNumber)]) (updateCalls w)
       (alerts w)).
Proof. by destruct layer. Qed.

(** The anchor scan leaves the table and the update history alone. *)
Lemma anchorScan_frame c layer idx messages w :
  db (anchorScan c layer idx messages w).2 = db w
  ∧ updateCalls (anchorScan c layer idx messages w).2 = updateCalls w
  ∧ alerts (anchorScan c layer idx messages w).2 = alerts w
  ∧ ∃ a, (anchorScan c layer idx messages w).1 = Done a.
Proof.
  revert idx w. induction messages as [|m ms IH]; intros idx w; simpl.
  - eauto.
  - unfold bind. rewrite BalanceAt_run.
    destruct (clientBalanceAt c layer _ _) as [b|]; simpl; [eauto|].
    match goal with |- context [anchorScan c layer (S idx) ms ?w1] =>
      destruct (IH (S idx) w1) as (H1 & H2 & H3 & H4) end.
    rewrite H1, H2, H3. eauto.
Qed.

(** When every query of the scan fails, the anchor stays [nil] and the
    start index stays 0. *)
Lemma anchorScan_all_fail c layer idx messages w :
  (∀ j m, messages !! j = Some m →
          clientBalanceAt c layer (length (oracleCalls w) + j)
            (blockNumberOf layer m) = None) →
  (anchorScan c layer idx messages w).1 = Done (None, 0%nat).
Proof.
  revert idx w. induction messages as [|m ms IH]; intros idx w Hfail; [done|].
  simpl. unfold bind. rewrite BalanceAt_run.
  pose proof (Hfail 0%nat m eq_refl) as H0. rewrite Nat.add_0_r in H0.
  rewrite H0. apply IH. intros j m' Hj. simpl. rewrite length_app. simpl.
  replace (length (oracleCalls w) + 1 + j)%nat
    with (length (oracleCalls w) + S j)%nat by lia.
  by apply Hfail.
Qed.

(** A sub-range check on a [nil] anchor panics as soon as the amounts of the
    sub-range decode. *)
Lemma checkBalance_nil_anchor layer endBalance messages :
  Forall decodable messages →
  checkBalance layer None endBalance messages = Panicked.
Proof.
  intros Hdec. unfold checkBalance.
  destruct (balanceDiffLoop layer 0 messages) as [d|id] eqn:Hloop; [done|].
  destruct (decide (Forall decodable messages)) as [_|Hnot]; [|done].
  exfalso. revert Hloop. generalize 0.
  induction Hdec as [|m ms [amount Ham] _ IH]; intros acc; simpl; [done|].
  rewrite Ham. apply IH.
Qed.

End Bisector.

(** C9. The bisector is meant never to run a sub-range check on an undefined
    anchor.  Scenario: the window of scenario A on layer 1 and a node that
    fails both queries of the anchor scan and then recovers.  The scan ends
    with a [nil] anchor; the second loop still queries block 12, gets 90,
    and runs the sub-range check on the [nil] anchor, which panics. *)
Theorem bisector_checks_on_nil_anchor :
  let w := mkWorld (storeOf scenarioA) [] [] [] in
  (anchorScan recoveringLogic Layer1 0 scenarioA w).1 = Done (None, 0%nat)
  ∧ oracleCalls (anchorScan recoveringLogic Layer1 0 scenarioA w).2
    = [(Layer1, 10); (Layer1, 12)]
  ∧ oracleCalls
      (checkBlockBalanceOneByOne (K := sampleConsts) recoveringLogic Layer1
         scenarioA w).2
    = [(Layer1, 10); (Layer1, 12); (Layer1, 12)]
  ∧ checkBalance (K := sampleConsts) Layer1 None 90 (slice scenarioA 0 2) = Panicked
  ∧ (checkBlockBalanceOneByOne (K := sampleConsts) recoveringLogic Layer1
       scenarioA w).1
    = Panicked.
Proof.
  intros w. subst w. repeat split; by vm_compute.
Qed.

(** *** What the second loop reports *)

Section Reporting.
Context {K : TypesConsts}.
Implicit Types (c : LogicMessengerCrossChain) (w : World).

(** One iteration never touches the table or the update history, whatever
    the anchor. *)
Lemma bisectStep_frame c layer messages anchor startIndex i w :
  db (bisectStep c layer messages anchor startIndex i w).2 = db w
  ∧ updateCalls (bisectStep c layer messages anchor startIndex i w).2 = updateCalls w.
Proof.
  unfold bisectStep. destruct (messages !! i) as [mi|]; [|done].
  destruct (sameBlockAsNext layer messages i); [done|].
  unfold bind. rewrite BalanceAt_run.
  destruct (clientBalanceAt c layer _ _) as [e|]; [|done].
  unfold liftOutcome.
  destruct (checkBalance layer anchor e _) as [[id|[] ex ac]|]; done.
Qed.

Lemma bisectLoop_frame c layer messages anchor startIndex indices w :
  db (bisectLoop c layer messages anchor startIndex indices w).2 = db w
  ∧ updateCalls (bisectLoop c layer messages anchor startIndex indices w).2
    = updateCalls w.
Proof.
  revert w. induction indices as [|i rest IH]; intros w; [done|].
  simpl. unfold bind.
  pose proof (bisectStep_frame c layer messages anchor startIndex i w) as [H1 H2].
  destruct (bisectStep c layer messages anchor startIndex i w) as [[[]|] w1];
    simpl in *; [|done].
  destruct (IH w1) as [H3 H4]. split; congruence.
Qed.

Lemma checkBlockBalanceOneByOne_frame c layer messages w :
  db (checkBlockBalanceOneByOne c layer messages w).2 = db w
  ∧ updateCalls (checkBlockBalanceOneByOne c layer messages w).2 = updateCalls w.
Proof.
  unfold checkBlockBalanceOneByOne, bind.
  destruct (anchorScan_frame c layer 0 messages w) as (H1 & H2 & _ & [a Ha]).
  destruct (anchorScan c layer 0 messages w) as [o w1]. simpl in *. subst o.
  destruct (bisectLoop_frame c layer messages a.1 a.2
              (indicesAfter a.2 (length messages)) w1) as [H3 H4].
  split; congruence.
Qed.

Lemma checkBalance_defined_anchor layer anchor endBalance messages :
  ∃ r, checkBalance layer (Some anchor) endBalance messages = Done r.
Proof.
  unfold checkBalance. destruct (balanceDiffLoop layer 0 messages); [|by eexists].
  destruct (_ =? _); by eexists.
Qed.

(** The iteration at a boundary, on a defined anchor: one balance query, and
    an alert exactly when the sub-range check fails. *)
Lemma bisectStep_boundary c layer messages anchor startIndex i mi w :
  messages !! i = Some mi →
  isBoundary layer messages i = true →
  ∃ extra,
    bisectStep c layer messages (Some anchor) startIndex i w
    = (Done tt,
       mkWorld (db w) (oracleCalls w ++ [(layer, blockNumberOf layer mi)])
         (updateCalls w) (alerts w ++ extra))
    ∧ ∀ e res,
        clientBalanceAt c layer (length (oracleCalls w)) (blockNumberOf layer mi)
        = Some e →
        checkBalance layer (Some anchor) e (slice messages startIndex (S i))
        = Done res →
        checkOk res = false →
        extra = [alertOf mi res].
Proof.
  intros Hmi Hb. unfold isBoundary in Hb. rewrite Hmi in Hb.
  apply negb_true_iff in Hb.
  unfold bisectStep. rewrite Hmi, Hb. unfold bind. rewrite BalanceAt_run.
  destruct (clientBalanceAt c layer _ _) as [e|].
  - destruct (checkBalance_defined_anchor layer anchor e
                (slice messages startIndex (S i))) as [res Hres].
    rewrite Hres. unfold liftOutcome, MrkDwnETHGatewayMessage.
    destruct res as [id|[] ex ac]; simpl.
    + exists [mkAlert mi None None]. split; [done|].
      intros e' res' [= <-] Hres' _. rewrite Hres in Hres'. by simplify_eq.
    + exists []. rewrite app_nil_r. split; [done|].
      intros e' res' [= <-] Hres' Hok. rewrite Hres in Hres'. by simplify_eq.
    + exists [mkAlert mi (Some ex) (Some ac)]. split; [done|].
      intros e' res' [= <-] Hres' _. rewrite Hres in Hres'. by simplify_eq.
  - exists []. rewrite app_nil_r. split; [done|]. intros e' res' He'. done.
Qed.

Lemma bisectStep_skip c layer messages anchor startIndex i w :
  isBoundary layer messages i = false →
  bisectStep c layer messages anchor startIndex i w = (Done tt, w).
Proof.
  unfold isBoundary, bisectStep. destruct (messages !! i) as [mi|]; [|done].
  intros Hb. apply negb_false_iff in Hb. by rewrite Hb.
Qed.

(** On a defined anchor the second loop visits every boundary, whatever the
    verdicts on the way, and every failed sub-range check leaves its alert. *)
Lemma bisectLoop_reports c layer messages anchor startIndex indices w :
  (bisectLoop c layer messages (Some anchor) startIndex indices w).1 = Done tt
  ∧ oracleCalls (bisectLoop c layer messages (Some anchor) startIndex indices w).2
    = oracleCalls w
      ++ ((λ i, (layer, blockNumberAt layer messages i))
            <$> boundariesIn layer messages indices)
  ∧ (∃ more,
       alerts (bisectLoop c layer messages (Some anchor) startIndex indices w).2
       = alerts w ++ more)
  ∧ (∀ j i mi e res,
       boundariesIn layer messages indices !! j = Some i →
       messages !! i = Some mi →
       clientBalanceAt c layer (length (oracleCalls w) + j) (blockNumberOf layer mi)
       = Some e →
       checkBalance layer (Some anchor) e (slice messages startIndex (S i)) = Done res →
       checkOk res = false →
       alertOf mi res
       ∈ alerts (bisectLoop c layer messages (Some anchor) startIndex indices w).2).
Proof.
  revert w. induction indices as [|i rest IH]; intros w.
  { simpl. split; [done|]. split; [by rewrite app_nil_r|].
    split; [exists []; by rewrite app_nil_r|]. intros j ? ? ? ? Hj.
    by rewrite lookup_nil in Hj. }
  cbn [bisectLoop]. unfold bind, boundariesIn. cbn [List.filter].
  destruct (isBoundary layer messages i) eqn:Hb.
  - assert (∃ mi, messages !! i = Some mi) as [mi Hmi].
    { unfold isBoundary in Hb. destruct (messages !! i); [by eexists|done]. }
    destruct (bisectStep_boundary c layer messages anchor startIndex i mi w Hmi Hb)
      as (extra & -> & Hextra).
    set (w1 := mkWorld _ _ _ _).
    assert (Hlen : length (oracleCalls w1) = S (length (oracleCalls w))).
    { subst w1. simpl. rewrite length_app. simpl. lia. }
    destruct (IH w1) as (H1 & H2 & [more H3] & H4).
    fold (boundariesIn layer messages rest).
    split; [done|]. split.
    { rewrite H2. subst w1. cbn [oracleCalls]. rewrite fmap_cons.
      unfold blockNumberAt at 2. rewrite Hmi. by rewrite <- app_assoc. }
    split.
    { exists (extra ++ more). rewrite H3. subst w1. cbn [alerts].
      by rewrite <- app_assoc. }
    intros [|j] i' mi' e' res' Hj Hmi' He' Hres' Hok'; simpl in Hj.
    + simplify_eq. rewrite Nat.add_0_r in He'.
      rewrite H3. subst w1. cbn [alerts].
      rewrite (Hextra e' res' He' Hres' Hok'), !elem_of_app.
      left. right. constructor.
    + apply (H4 j i' mi' e' res'); try done.
      rewrite Hlen. by replace (S (length (oracleCalls w)) + j)%nat
        with (length (oracleCalls w) + S j)%nat by lia.
  - rewrite (bisectStep_skip c layer messages (Some anchor) startIndex i w Hb).
    apply IH.
Qed.

End Reporting.

(** C8. When the aggregate check of a window fails, [checkETH] hands the
    window to the bisector and writes nothing: the table is unchanged and no
    row update is even attempted.  Once the bisector has its anchor, it
    queries every boundary after the anchor, however many mismatches it has
    met, and for every boundary whose sub-range check fails the alert with
    the boundary row and the expected and actual balances has been sent. *)
Theorem mismatch_is_reported_not_committed (K : TypesConsts)
    (c : LogicMessengerCrossChain) (layer : LayerType)
    (startBlockNumber endBlockNumber latestBlockNumber startBalance : Z)
    (messages : list MessengerMessageMatch) (w : World)
    (endBalance expectedEndBalance : Z) :
  isLayer1 layer
  && ((endBlockNumber + ethBalanceGap) mod 2 ^ 64 <? latestBlockNumber) = false →
  clientBalanceAt c layer (length (oracleCalls w)) endBlockNumber = Some endBalance →
  checkBalance layer (Some startBalance) endBalance messages
  = Done (CheckDone false expectedEndBalance endBalance) →
  let w1 := mkWorld (db w) (oracleCalls w ++ [(layer, endBlockNumber)])
              (updateCalls w) (alerts w) in
  let r := checkETH c layer startBlockNumber endBlockNumber latestBlockNumber
             startBalance messages w in
  r = checkBlockBalanceOneByOne c layer messages w1
  ∧ db r.2 = db w
  ∧ updateCalls r.2 = updateCalls w
  ∧ ∀ anchor startIndex w2,
      anchorScan c layer 0 messages w1 = (Done (Some anchor, startIndex), w2) →
      let boundaries :=
        boundariesIn layer messages (indicesAfter startIndex (length messages)) in
      r.1 = Done tt
      ∧ oracleCalls r.2
        = oracleCalls w2
          ++ ((λ i, (layer, blockNumberAt layer messages i)) <$> boundaries)
      ∧ ∀ j i mi e res,
          boundaries !! j = Some i →
          messages !! i = Some mi →
          clientBalanceAt c layer (length (oracleCalls w2) + j)
            (blockNumberOf layer mi) = Some e →
          checkBalance layer (Some anchor) e (slice messages startIndex (S i))
          = Done res →
          checkOk res = false →
          alertOf mi res ∈ alerts r.2.
Proof.
  intros Hguard Hend Hcheck w1 r.
  assert (Hrun : r = checkBlockBalanceOneByOne c layer messages w1).
  { subst r w1. unfold checkETH. rewrite Hguard. unfold bind.
    rewrite BalanceAt_run, Hend. unfold liftOutcome. by rewrite Hcheck. }
  split; [done|]. rewrite Hrun.
  destruct (checkBlockBalanceOneByOne_frame c layer messages w1) as [Hdb Hup].
  split; [done|]. split; [done|].
  intros anchor startIndex w2 Hscan boundaries.
  unfold checkBlockBalanceOneByOne, bind. rewrite Hscan. simpl.
  destruct (bisectLoop_reports c layer messages anchor startIndex
              (indicesAfter startIndex (length messages)) w2)
    as (H1 & H2 & _ & H4).
  done.
Qed.

Lemma mismatch_is_reported_not_committed_witness :
  let w := mkWorld (storeOf scenarioA) [] [] [] in
  let r := checkETH (K := sampleConsts) scenarioBLogic Layer1 10 12 20 100
             scenarioA w in
  db r.2 = storeOf scenarioA
  ∧ updateCalls r.2 = []
  ∧ r.1 = Done tt
  ∧ alertOf (l1Row 2 2 12 "20") (CheckDone false 140 90) ∈ alerts r.2.
Proof.
  intros w r.
  destruct (mismatch_is_reported_not_committed sampleConsts scenarioBLogic Layer1
              10 12 20 100 scenarioA w 90 110 eq_refl eq_refl eq_refl)
    as (_ & Hdb & Hup & Hrep).
  destruct (Hrep 130 0%nat
              (mkWorld (storeOf scenarioA) [(Layer1, 12); (Layer1, 10)] [] [])
              eq_refl) as (Hdone & _ & Halert).
  split; [exact Hdb|]. split; [exact Hup|]. split; [exact Hdone|].
  exact (Halert 0%nat 1%nat (l1Row 2 2 12 "20") 90 (CheckDone false 140 90)
           eq_refl eq_refl eq_refl eq_refl eq_refl).
Defined.

(** ** The per-block derivation *)

Section Derivation.
Context {K : TypesConsts}.

Lemma sumWhere_app P layer ms1 ms2 :
  sumWhere P layer (ms1 ++ ms2) = sumWhere P layer ms1 + sumWhere P layer ms2.
Proof. induction ms1 as [|m ms1 IH]; simpl; [done|]. rewrite IH. lia. Qed.

Lemma sumWhere_none P layer ms :
  Forall (λ m, P m = false) ms → sumWhere P layer ms = 0.
Proof. induction 1 as [|m ms Hm _ IH]; simpl; [done|]. rewrite Hm, IH. done. Qed.

Lemma sumWhere_ext P Q layer ms :
  Forall (λ m, P m = Q m) ms → sumWhere P layer ms = sumWhere Q layer ms.
Proof. induction 1 as [|m ms Hm _ IH]; simpl; [done|]. by rewrite Hm, IH. Qed.

Lemma deltaUpTo_split layer ms b :
  deltaUpTo layer ms b = deltaBefore layer ms b + blockDelta layer ms b.
Proof.
  unfold deltaUpTo, deltaBefore, blockDelta.
  induction ms as [|m ms IH]; simpl; [done|]. rewrite IH.
  destruct (Z.leb_spec (blockNumberOf layer m) b),
    (Z.ltb_spec (blockNumberOf layer m) b),
    (Z.eqb_spec (blockNumberOf layer m) b); lia.
Qed.

(** Moving on from block [last] to the next block [b] of an ordered
    window adds exactly the net delta of [b]. *)
Lemma deltaUpTo_next layer pre suf last b :
  Forall (λ m, blockNumberOf layer m ≤ last) pre →
  Forall (λ m, b ≤ blockNumberOf layer m) suf →
  last < b →
  deltaUpTo layer (pre ++ suf) b
  = deltaUpTo layer (pre ++ suf) last + blockDelta layer (pre ++ suf) b.
Proof.
  intros Hpre Hsuf Hlt. unfold deltaUpTo, blockDelta.
  rewrite !sumWhere_app.
  assert (sumWhere (λ m, blockNumberOf layer m <=? b) layer pre
          = sumWhere (λ m, blockNumberOf layer m <=? last) layer pre) as ->.
  { apply sumWhere_ext. eapply Forall_impl; [exact Hpre|]. intros m Hm. simpl in *.
    destruct (Z.leb_spec (blockNumberOf layer m) b),
      (Z.leb_spec (blockNumberOf layer m) last); lia. }
  assert (sumWhere (λ m, blockNumberOf layer m =? b) layer pre = 0) as ->.
  { apply sumWhere_none. eapply Forall_impl; [exact Hpre|]. intros m Hm. simpl in *.
    destruct (Z.eqb_spec (blockNumberOf layer m) b); lia. }
  assert (sumWhere (λ m, blockNumberOf layer m <=? last) layer suf = 0) as ->.
  { apply sumWhere_none. eapply Forall_impl; [exact Hsuf|]. intros m Hm. simpl in *.
    destruct (Z.leb_spec (blockNumberOf layer m) last); lia. }
  assert (sumWhere (λ m, blockNumberOf layer m <=? b) layer suf
          = sumWhere (λ m, blockNumberOf layer m =? b) layer suf) as ->.
  { apply sumWhere_ext. eapply Forall_impl; [exact Hsuf|]. intros m Hm. simpl in *.
    destruct (Z.leb_spec (blockNumberOf layer m) b),
      (Z.eqb_spec (blockNumberOf layer m) b); lia. }
  lia.
Qed.

(** *** The block map *)

Lemma mapGet_insert (m : gmap Z Z) k v b :
  mapGet (<[k := v]> m) b = if k =? b then v else mapGet m b.
Proof.
  unfold mapGet. destruct (Z.eqb_spec k b) as [->|Hne].
  - by rewrite lookup_insert_eq.
  - by rewrite lookup_insert_ne.
Qed.

Lemma mapGet_ensureEntry (m : gmap Z Z) k b :
  mapGet (ensureEntry k m) b = mapGet m b.
Proof.
  unfold ensureEntry. destruct (m !! k) eqn:Hk; [done|].
  rewrite mapGet_insert. destruct (Z.eqb_spec k b) as [<-|]; [|done].
  unfold mapGet. by rewrite Hk.
Qed.

Lemma mapGet_addBlockAmount layer message amount (m : gmap Z Z) b :
  distinct_events K →
  mapGet (addBlockAmount layer message amount m) b
  = mapGet m b
    + (if blockNumberOf layer message =? b then signedDelta layer message amount
       else 0).
Proof.
  intros HK. pose proof (distinct_events_layer layer HK) as Hne.
  unfold addBlockAmount, signedDelta.
  destruct layer; simpl in *;
    repeat match goal with
           | |- context [?x =? ?y] => destruct (Z.eqb_spec x y)
           | |- context [mapGet (<[_ := _]> _) _] => rewrite mapGet_insert
           end; subst; lia.
Qed.


Lemma addBlockAmount_is_Some layer message amount (m : gmap Z Z) k :
  is_Some (m !! k) → is_Some (addBlockAmount layer message amount m !! k).
Proof.
  intros Hk. unfold addBlockAmount.
  destruct layer; simpl;
    repeat match goal with
           | |- context [if ?t then _ else _] => destruct t
           | |- is_Some (<[_ := _]> _ !! _) => apply lookup_insert_is_Some'; right
           end; done.
Qed.

Lemma ensureEntry_is_Some (m : gmap Z Z) k k' :
  k = k' ∨ is_Some (m !! k') → is_Some (ensureEntry k m !! k').
Proof.
  unfold ensureEntry. destruct (m !! k) eqn:Hk.
  - intros [<-|H]; [by rewrite Hk | done].
  - intros H. apply lookup_insert_is_Some'. destruct H; auto.
Qed.

(** Every map read of the derivation hits an entry: the first loop creates
    one for the block of each row before the second loop reads it. *)
Lemma buildBlockNumberAmountMap_lookup layer (m0 m' : gmap Z Z) ms :
  buildBlockNumberAmountMap layer m0 ms = Some m' →
  (∀ k, is_Some (m0 !! k) → is_Some (m' !! k))
  ∧ Forall (λ v, is_Some (m' !! blockNumberOf layer v)) ms.
Proof.
  revert m0. induction ms as [|v ms IH]; intros m0; simpl.
  - intros [= <-]. split; [done | constructor].
  - destruct (SetString (ETHAmount v)) as [amount|]; [|done].
    intros Hbuild. destruct (IH _ Hbuild) as [Hmono Hall].
    assert (∀ k, blockNumberOf layer v = k ∨ is_Some (m0 !! k) → is_Some (m' !! k))
      as Hk.
    { intros k Hor. apply Hmono, addBlockAmount_is_Some, ensureEntry_is_Some, Hor. }
    split; [intros k ?; apply Hk; by right|].
    constructor; [apply Hk; by left | done].
Qed.

(** The first loop succeeds on a decodable window and leaves in the map, for
    every block, the net delta of the rows of that block. *)
Lemma buildBlockNumberAmountMap_blockDelta layer (m0 : gmap Z Z) ms :
  distinct_events K →
  Forall decodable ms →
  ∃ m', buildBlockNumberAmountMap layer m0 ms = Some m'
        ∧ ∀ b, mapGet m' b = mapGet m0 b + blockDelta layer ms b.
Proof.
  intros HK Hdec. revert m0.
  induction Hdec as [|v ms [amount Ham] _ IH]; intros m0; simpl.
  - exists m0. split; [done|]. intros b. unfold blockDelta. simpl. lia.
  - rewrite Ham.
    destruct (IH (addBlockAmount layer v amount
                    (ensureEntry (blockNumberOf layer v) m0))) as (m' & Hm' & Hget).
    exists m'. split; [done|]. intros b.
    rewrite Hget, mapGet_addBlockAmount, mapGet_ensureEntry by done.
    unfold blockDelta. simpl. unfold deltaOf. rewrite Ham. lia.
Qed.

Lemma buildBlockNumberAmountMap_Some layer (m0 m' : gmap Z Z) ms :
  buildBlockNumberAmountMap layer m0 ms = Some m' → Forall decodable ms.
Proof.
  revert m0. induction ms as [|v ms IH]; intros m0; simpl; [by constructor|].
  destruct (SetString (ETHAmount v)) as [amount|] eqn:Ham; [|done].
  intros H. constructor; [unfold decodable; by rewrite Ham | by eapply IH].
Qed.

End Derivation.

Section RunningBalance.
Context {K : TypesConsts}.

(** The second loop on an ordered window: [pre] is the part already walked,
    [last] the block of its last row (0 before the first row), [bal] the
    running balance accumulated so far. *)
Lemma walkBlocks_running layer (blockNumberAmountMap : gmap Z Z) startBalance
    pre suf bal last :
  (∀ b, mapGet blockNumberAmountMap b = blockDelta layer (pre ++ suf) b) →
  Forall (λ m, blockNumberOf layer m ≤ last) pre →
  Forall (λ m, last ≤ blockNumberOf layer m) suf →
  StronglySorted (blockLe layer) suf →
  bal = startBalance + deltaUpTo layer (pre ++ suf) last →
  walkBlocks layer blockNumberAmountMap bal last suf
  = (λ v, balanceUpdate layer (ID v)
            (startBalance + deltaUpTo layer (pre ++ suf) (blockNumberOf layer v)))
      <$> suf.
Proof.
  revert pre bal last. induction suf as [|v rest IH];
    intros pre bal last Hmap Hpre Hsuf Hsorted Hbal; [done|].
  apply StronglySorted_cons in Hsorted as [Hv Hsorted].
  apply Forall_cons in Hsuf as [Hlast Hsuf].
  assert (Hbal' :
    (if blockNumberOf layer v =? last then bal
     else bal + mapGet blockNumberAmountMap (blockNumberOf layer v))
    = startBalance + deltaUpTo layer (pre ++ v :: rest) (blockNumberOf layer v)).
  { destruct (Z.eqb_spec (blockNumberOf layer v) last) as [->|Hne]; [done|].
    rewrite Hmap, Hbal.
    rewrite (deltaUpTo_next layer pre (v :: rest) last (blockNumberOf layer v));
      [lia | done | | lia].
    constructor; [lia|]. exact Hv. }
  cbn [walkBlocks fmap list_fmap]. rewrite Hbal'. f_equal.
  replace (pre ++ v :: rest) with ((pre ++ [v]) ++ rest) in *
    by (by rewrite <- app_assoc).
  apply IH; try done.
  - apply Forall_app. split; [|by repeat constructor].
    eapply Forall_impl; [exact Hpre|]. intros m Hm. simpl in *. lia.
Qed.

Lemma deltaUpTo_zero layer ms :
  Forall (λ m, 0 < blockNumberOf layer m) ms → deltaUpTo layer ms 0 = 0.
Proof.
  intros Hpos. apply sumWhere_none. eapply Forall_impl; [exact Hpos|].
  intros m Hm. simpl in *. destruct (Z.leb_spec (blockNumberOf layer m) 0); lia.
Qed.

(** On a decodable window in ascending block order whose block numbers are
    not 0, the derivation gives every row the balance immediately before
    its block plus the net delta of its block. *)
Lemma updateETHMessageMatches_running layer messages startBalance :
  distinct_events K →
  Forall decodable messages →
  StronglySorted (blockLe layer) messages →
  Forall (λ m, 0 < blockNumberOf layer m) messages →
  updateETHMessageMatches layer messages startBalance
  = Some (sortByID
            ((λ v, balanceUpdate layer (ID v)
                     (runningBalance layer startBalance messages
                        (blockNumberOf layer v)))
               <$> messages)).
Proof.
  intros HK Hdec Hsorted Hpos. unfold updateETHMessageMatches.
  destruct (buildBlockNumberAmountMap_blockDelta layer ∅ messages HK Hdec)
    as (m' & -> & Hget).
  f_equal. f_equal.
  rewrite (walkBlocks_running layer m' startBalance [] messages startBalance 0).
  - apply list_fmap_ext. intros i v Hv. simpl. f_equal.
    unfold runningBalance. rewrite deltaUpTo_split. lia.
  - intros b. rewrite Hget. unfold mapGet. rewrite lookup_empty. simpl. lia.
  - constructor.
  - eapply Forall_impl; [exact Hpos|]. intros m Hm. simpl in *. lia.
  - done.
  - simpl. rewrite deltaUpTo_zero by done. lia.
Qed.




End RunningBalance.

(** C3. The derivation is meant to give every row of a validated window the
    balance immediately before its block plus the net delta of its block.
    Scenario: layer 1, start balance 100, a sent row of 30 at block 0 and a
    sent row of 5 at block 5, balance 135 at block 5.  The aggregate check
    passes, and the derivation assigns 100 and 105 where the running
    balances are 130 and 135: the delta of block 0 is never added. *)
Theorem derivation_skips_block_zero :
  checkBalance (K := sampleConsts) Layer1 (Some 100) 135 genesisWindow
  = Done (CheckDone true 135 135)
  ∧ updateETHMessageMatches (K := sampleConsts) Layer1 genesisWindow 100
    = Some [balanceUpdate (K := sampleConsts) Layer1 1 100;
            balanceUpdate (K := sampleConsts) Layer1 2 105]
  ∧ runningBalance (K := sampleConsts) Layer1 100 genesisWindow 0 = 130
  ∧ runningBalance (K := sampleConsts) Layer1 100 genesisWindow 5 = 135.
Proof. repeat split; by vm_compute. Qed.

(** ** Rows without a sent or relayed event *)



(** ** The derivation on windows that start after block 0 *)

(** On a decodable layer window in ascending block order whose block numbers
    are all positive, the commit set gives every row the balance immediately
    before its block plus the net signed delta of the rows of its block; in
    particular rows of one block get one balance. *)
Theorem derivation_running_balance (K : TypesConsts) (layer : LayerType)
    (messages : list MessengerMessageMatch) (startBalance : Z) :
  distinct_events K →
  Forall decodable messages →
  StronglySorted (blockLe layer) messages →
  Forall (λ m, 0 < blockNumberOf layer m) messages →
  ∃ updates,
    updateETHMessageMatches layer messages startBalance = Some updates
    ∧ StronglySorted idLe updates
    ∧ updates
      ≡ₚ (λ v, balanceUpdate layer (ID v)
                 (runningBalance layer startBalance messages (blockNumberOf layer v)))
           <$> messages.
Proof.
  intros HK Hdec Hsorted Hpos. eexists. split.
  - by apply updateETHMessageMatches_running.
  - split; [apply sortByID_sorted | apply sortByID_perm].
Qed.

(** Scenario C: two sent rows of 30 and 5 in block 10, start balance 100:
    both get 135. *)
Lemma derivation_running_balance_witness :
  ∃ updates,
    updateETHMessageMatches (K := sampleConsts) Layer1 scenarioC 100 = Some updates
    ∧ updates
      ≡ₚ [balanceUpdate (K := sampleConsts) Layer1 1 135;
          balanceUpdate (K := sampleConsts) Layer1 2 135;
          balanceUpdate (K := sampleConsts) Layer1 3 115].
Proof.
  assert (Hdec : Forall decodable scenarioC)
    by (repeat constructor; unfold decodable; simpl; eauto).
  assert (Hsorted : StronglySorted (blockLe Layer1) scenarioC)
    by (repeat constructor; unfold blockLe; simpl; lia).
  assert (Hpos : Forall (λ x, 0 < blockNumberOf Layer1 x) scenarioC)
    by (repeat constructor; simpl; lia).
  destruct (derivation_running_balance sampleConsts Layer1 scenarioC 100
              sampleConsts_distinct Hdec Hsorted Hpos) as (updates & Hsome & _ & Hperm).
  exists updates. split; [exact Hsome | exact Hperm].
Defined.

(** ** The selector on spans whose first unresolved row is not at block 0 *)

(** When the first unresolved row of the span is at a block other than 0,
    the selector returns exactly the rows of the span whose block is
    strictly below that block, in their order. *)
Theorem selector_truncates_below_first_unresolved (K : TypesConsts)
    (layer : LayerType) (pre suf : list MessengerMessageMatch)
    (m : MessengerMessageMatch) :
  Forall resolved pre →
  ¬ resolved m →
  blockNumberOf layer m ≠ 0 →
  truncatedMessageMatches layer (pre ++ m :: suf)
  = List.filter (λ x, blockNumberOf layer x <? blockNumberOf layer m)
      (pre ++ m :: suf)
  ∧ Forall (λ x, blockNumberOf layer x < blockNumberOf layer m)
      (truncatedMessageMatches layer (pre ++ m :: suf)).
Proof.
  intros Hpre Hm Hnz.
  rewrite (truncatedMessageMatches_below layer pre m suf Hpre Hm Hnz).
  split; [done|]. apply Forall_forall. intros x Hx.
  apply list_elem_of_In, filter_In in Hx as [_ Hx]. by apply Z.ltb_lt.
Qed.

Lemma selector_truncates_below_first_unresolved_witness :
  truncatedMessageMatches (K := sampleConsts) Layer1
    ([l1Row 1 1 10 "30"] ++ unresolvedRow sampleConsts 2 12 :: [l1Row 3 1 12 "4"])
  = [l1Row 1 1 10 "30"].
Proof.
  destruct (selector_truncates_below_first_unresolved sampleConsts Layer1
              [l1Row 1 1 10 "30"] [l1Row 3 1 12 "4"] (unresolvedRow sampleConsts 2 12))
    as [-> _].
  - repeat constructor.
  - unfold resolved. simpl. lia.
  - simpl. lia.
  - reflexivity.
Defined.

(** ** The bisector when the node keeps failing *)

Section SilentNode.
Context {K : TypesConsts}.
Implicit Types (c : LogicMessengerCrossChain) (w : World).

Lemma bisectLoop_all_fail c layer messages anchor startIndex indices w :
  (∀ n m, m ∈ messages → clientBalanceAt c layer n (blockNumberOf layer m) = None) →
  (bisectLoop c layer messages anchor startIndex indices w).1 = Done tt
  ∧ alerts (bisectLoop c layer messages anchor startIndex indices w).2 = alerts w.
Proof.
  intros Hfail. revert w. induction indices as [|i rest IH]; intros w; [done|].
  cbn [bisectLoop]. unfold bind.
  assert (∃ w1, bisectStep c layer messages anchor startIndex i w = (Done tt, w1)
                ∧ alerts w1 = alerts w) as (w1 & -> & <-).
  { unfold bisectStep. destruct (messages !! i) as [mi|] eqn:Hmi; [|by eexists].
    destruct (sameBlockAsNext layer messages i); [by eexists|].
    unfold bind. rewrite BalanceAt_run, Hfail; [by eexists|].
    apply list_elem_of_lookup. eauto. }
  apply IH.
Qed.

End SilentNode.

(** When the node answers no balance query for the blocks of the window
    during the whole run of the bisector, no sub-range check is performed:
    the bisector ends normally, sends no alert and writes nothing. *)
Theorem bisector_silent_node_no_check (K : TypesConsts)
    (c : LogicMessengerCrossChain) (layer : LayerType)
    (messages : list MessengerMessageMatch) (w : World) :
  (∀ n m, m ∈ messages → clientBalanceAt c layer n (blockNumberOf layer m) = None) →
  (checkBlockBalanceOneByOne c layer messages w).1 = Done tt
  ∧ alerts (checkBlockBalanceOneByOne c layer messages w).2 = alerts w
  ∧ db (checkBlockBalanceOneByOne c layer messages w).2 = db w.
Proof.
  intros Hfail.
  destruct (checkBlockBalanceOneByOne_frame c layer messages w) as [Hdb _].
  split; [|split; [|done]].
  - unfold checkBlockBalanceOneByOne, bind.
    destruct (anchorScan_frame c layer 0 messages w) as (_ & _ & _ & [a Ha]).
    destruct (anchorScan c layer 0 messages w) as [o w1]. simpl in Ha. subst o.
    by apply bisectLoop_all_fail.
  - unfold checkBlockBalanceOneByOne, bind.
    destruct (anchorScan_frame c layer 0 messages w) as (_ & _ & Hal & [a Ha]).
    destruct (anchorScan c layer 0 messages w) as [o w1]. simpl in *. subst o.
    rewrite <- Hal. by apply bisectLoop_all_fail.
Qed.

Lemma bisector_silent_node_no_check_witness :
  (checkBlockBalanceOneByOne (K := sampleConsts) quietLogic Layer1 scenarioA
     (mkWorld (storeOf scenarioA) [] [] [])).1
  = Done tt.
Proof.
  apply (bisector_silent_node_no_check sampleConsts quietLogic Layer1 scenarioA
           (mkWorld (storeOf scenarioA) [] [] [])).
  intros n m _. reflexivity.
Defined.

(** ** One invocation of the engine on layer 1 *)

Section Invocation.
Context {K : TypesConsts}.
Implicit Types (c : LogicMessengerCrossChain) (w : World).

Lemma truncateLoop_elem layer tb ms m :
  m ∈ truncateLoop layer tb ms → m ∈ ms.
Proof.
  induction ms as [|x ms IH]; simpl; [done|].
  destruct (tb =? 0); [|destruct (blockNumberOf layer x <? tb)];
    rewrite ?elem_of_cons; tauto.
Qed.

Lemma truncatedMessageMatches_elem layer ms m :
  m ∈ truncatedMessageMatches layer ms → m ∈ ms.
Proof. apply truncateLoop_elem. Qed.

Lemma last_elem (others : list MessengerMessageMatch) first :
  List.last others first ∈ first :: others.
Proof.
  revert first. induction others as [|x others IH]; intros first.
  - constructor.
  - destruct others as [|y others'].
    + simpl. apply elem_of_cons. right. constructor.
    + change (List.last (x :: y :: others') first)
        with (List.last (y :: others') first).
      specialize (IH first). rewrite !elem_of_cons in *. tauto.
Qed.

(** An invocation on layer 1 either gives up before it has a window, the
    world untouched, or runs [checkETH] on the window the selector cut out
    of the refetched span, from the first to the last block of that
    window. *)
Lemma CheckETHBalance_layer1 c w :
  CheckETHBalance c Layer1 w = (Done tt, w)
  ∨ ∃ latestBlockNumber startBalance startBlockNumber endBlockNumber span
      firstKept othersKept,
      l1ClientHeaderByNumber c = Some latestBlockNumber
      ∧ GetETHMessageMatchByBlockRange c (db w) Layer1 startBlockNumber
          endBlockNumber = Some span
      ∧ truncatedMessageMatches Layer1 span = firstKept :: othersKept
      ∧ CheckETHBalance c Layer1 w
        = checkETH c Layer1 (L1BlockNumber firstKept)
            (L1BlockNumber (List.last othersKept firstKept))
            latestBlockNumber startBalance (firstKept :: othersKept) w.
Proof.
  unfold CheckETHBalance, getLatestBlockNumber, bind, getDb, seedStartBalance, ret.
  destruct (l1ClientHeaderByNumber c) as [latest|]; [|by left].
  destruct (GetETHCheckStartBlockNumberAndBalance c (db w) Layer1)
    as [[sb|]|]; [| |by left];
    (destruct (GetUncheckedLatestETHMessageMatch c (db w) Layer1 messageLimit)
       as [[|first others]|]; [by left| |by left];
     destruct (GetETHMessageMatchByBlockRange c (db w) Layer1 _ _)
       as [span|] eqn:Hspan; [|by left];
     destruct (truncatedMessageMatches Layer1 span) as [|fk ok] eqn:Hcut;
       [by left|];
     right; by eexists latest, _, _, _, span, fk, ok).
Qed.

End Invocation.

(** On layer 1, when every row the store returns for a block range lies
    more than [ethBalanceGap] blocks behind the chain head, a whole
    invocation of the engine queries no balance. *)
Theorem stale_invocation_queries_no_balance (K : TypesConsts)
    (c : LogicMessengerCrossChain) (w : World) (latestBlockNumber : Z) :
  l1ClientHeaderByNumber c = Some latestBlockNumber →
  latestBlockNumber < 2 ^ 64 →
  (∀ startBlockNumber endBlockNumber span m,
     GetETHMessageMatchByBlockRange c (db w) Layer1 startBlockNumber endBlockNumber
     = Some span →
     m ∈ span → 0 ≤ L1BlockNumber m ∧ L1BlockNumber m + 50 < latestBlockNumber) →
  oracleCalls (CheckETHBalance c Layer1 w).2 = oracleCalls w.
Proof.
  intros Hlatest Hrange Hstale.
  destruct (CheckETHBalance_layer1 c w)
    as [->|(latest & sb & s & e & span & fk & ok & Hl & Hspan & Hcut & ->)]; [done|].
  assert (latest = latestBlockNumber) as -> by congruence.
  assert (List.last ok fk ∈ span) as Hin.
  { apply (truncatedMessageMatches_elem Layer1). rewrite Hcut. apply last_elem. }
  destruct (Hstale s e span _ Hspan Hin) as [Hnonneg Hgap].
  unfold checkETH, ethBalanceGap. simpl.
  rewrite Z.mod_small by lia.
  destruct (Z.ltb_spec (L1BlockNumber (List.last ok fk) + 50) latestBlockNumber);
    [|lia].
  apply computeBlockBalance_frame.
Qed.

Lemma stale_invocation_queries_no_balance_witness :
  oracleCalls
    (CheckETHBalance (K := sampleConsts) staleLogic Layer1
       (mkWorld (storeOf scenarioA) [] [] [])).2
  = [].
Proof.
  apply (stale_invocation_queries_no_balance sampleConsts staleLogic
           (mkWorld (storeOf scenarioA) [] [] []) 100 eq_refl); [lia|].
  intros s e span m [= <-] Hm.
  apply elem_of_cons in Hm as [->|Hm]; [simpl; lia|].
  apply elem_of_cons in Hm as [->|Hm]; [simpl; lia|].
  by apply elem_of_nil in Hm.
Defined.

(** ** Windows with an amount that does not decode *)

(** A window with a row whose amount does not decode is dropped as a whole:
    [checkETH] ends normally, writes nothing, attempts no row update and
    sends no alert (scenario D). *)
Theorem undecodable_window_commits_nothing (K : TypesConsts)
    (c : LogicMessengerCrossChain) (layer : LayerType)
    (startBlockNumber endBlockNumber latestBlockNumber startBalance : Z)
    (messages : list MessengerMessageMatch) (w : World) :
  ¬ Forall decodable messages →
  let r := checkETH c layer startBlockNumber endBlockNumber latestBlockNumber
             startBalance messages w in
  r.1 = Done tt
  ∧ db r.2 = db w
  ∧ updateCalls r.2 = updateCalls w
  ∧ alerts r.2 = alerts w.
Proof.
  intros Hnot r. subst r. unfold checkETH.
  destruct (isLayer1 layer && _).
  - unfold computeBlockBalance, updateETHMessageMatches.
    destruct (buildBlockNumberAmountMap layer ∅ messages) as [bm|] eqn:Hbm; [|done].
    destruct Hnot. by eapply buildBlockNumberAmountMap_Some.
  - unfold bind. rewrite BalanceAt_run.
    destruct (clientBalanceAt c layer _ _) as [e|]; [|done].
    unfold liftOutcome, checkBalance.
    destruct (balanceDiffLoop_undecodable layer 0 messages Hnot) as [id ->].
    done.
Qed.

Lemma undecodable_window_commits_nothing_witness :
  let window := [l1Row 1 1 10 "30"; l1Row 2 2 12 "2x"] in
  db (checkETH (K := sampleConsts) scenarioBLogic Layer1 10 12 20 100 window
        (mkWorld (storeOf window) [] [] [])).2
  = storeOf window.
Proof.
  intros window.
  apply (undecodable_window_commits_nothing sampleConsts scenarioBLogic Layer1
           10 12 20 100 window (mkWorld (storeOf window) [] [] [])).
  intros Hall. apply Forall_cons in Hall as [_ Hall].
  apply Forall_cons in Hall as [[amount Hamount] _]. discriminate Hamount.
Defined.

(** ** What [checkETH] does with the verdict *)

(** Outside the stale-block bypass, [checkETH] queries the balance at the
    end block of the window once and compares it with
    [startBalance + Σ(delta)]: on equality the window goes to the per-block
    derivation, otherwise to the bisector. *)
Theorem checkETH_dispatches_on_verdict (K : TypesConsts)
    (c : LogicMessengerCrossChain) (layer : LayerType)
    (startBlockNumber endBlockNumber latestBlockNumber startBalance : Z)
    (messages : list MessengerMessageMatch) (w : World) (endBalance : Z) :
  distinct_events K →
  Forall decodable messages →
  isLayer1 layer
  && ((endBlockNumber + ethBalanceGap) mod 2 ^ 64 <? latestBlockNumber) = false →
  clientBalanceAt c layer (length (oracleCalls w)) endBlockNumber = Some endBalance →
  let w1 := mkWorld (db w) (oracleCalls w ++ [(layer, endBlockNumber)])
              (updateCalls w) (alerts w) in
  checkETH c layer startBlockNumber endBlockNumber latestBlockNumber startBalance
    messages w
  = if startBalance + sumDeltas layer messages =? endBalance
    then computeBlockBalance c layer messages startBalance w1
    else checkBlockBalanceOneByOne c layer messages w1.
Proof.
  intros HK Hdec Hguard Hend w1. subst w1.
  unfold checkETH. rewrite Hguard. unfold bind.
  rewrite BalanceAt_run, Hend. unfold liftOutcome.
  rewrite checkBalance_decodable by done.
  by destruct (_ =? _).
Qed.

(** Scenario A end to end: both rows end with their running balance
    written. *)
Lemma checkETH_dispatches_on_verdict_witness :
  let w := mkWorld (storeOf scenarioA) [] [] [] in
  let r := checkETH (K := sampleConsts) scenarioALogic Layer1 10 12 20 100
             scenarioA w in
  oracleCalls r.2 = [(Layer1, 12)]
  ∧ L1MessengerETHBalance <$> db r.2 !! 1 = Some 130
  ∧ L1MessengerETHBalance <$> db r.2 !! 2 = Some 110.
Proof.
  intros w r. subst r.
  assert (Hdec : Forall decodable scenarioA)
    by (repeat constructor; unfold decodable; simpl; eauto).
  rewrite (checkETH_dispatches_on_verdict sampleConsts scenarioALogic Layer1
             10 12 20 100 scenarioA w 110 sampleConsts_distinct Hdec eq_refl eq_refl).
  by vm_compute.
Defined.

(** ** Invocations that find nothing to do *)



(** * Further properties of the engine *)

(** ** The anchor scan of the bisector *)

Section AnchorScan.
Implicit Types (c : LogicMessengerCrossChain) (w : World).

(** The scan started at index [idx]: what it returns and which balances it
    has queried. *)
Lemma anchorScan_from c layer idx messages w :
  match (anchorScan c layer idx messages w).1 with
  | Done (Some b, k) =>
      ∃ j mj,
        k = (idx + j)%nat
        ∧ messages !! j = Some mj
        ∧ clientBalanceAt c layer (length (oracleCalls w) + j)
            (blockNumberOf layer mj) = Some b
        ∧ (∀ i mi, (i < j)%nat → messages !! i = Some mi →
                   clientBalanceAt c layer (length (oracleCalls w) + i)
                     (blockNumberOf layer mi) = None)
        ∧ oracleCalls (anchorScan c layer idx messages w).2
          = oracleCalls w
            ++ ((λ m, (layer, blockNumberOf layer m)) <$> take (S j) messages)
  | Done (None, k) =>
      k = 0%nat
      ∧ (∀ i mi, messages !! i = Some mi →
                 clientBalanceAt c layer (length (oracleCalls w) + i)
                   (blockNumberOf layer mi) = None)
      ∧ oracleCalls (anchorScan c layer idx messages w).2
        = oracleCalls w ++ ((λ m, (layer, blockNumberOf layer m)) <$> messages)
  | Panicked => False
  end.
Proof.
  revert idx w. induction messages as [|m ms IH]; intros idx w.
  { simpl. split; [done|]. split; [|by rewrite app_nil_r].
    intros i mi Hi. by rewrite lookup_nil in Hi. }
  cbn [anchorScan]. unfold bind. rewrite BalanceAt_run.
  destruct (clientBalanceAt c layer (length (oracleCalls w)) (blockNumberOf layer m))
    as [b|] eqn:Hm.
  { simpl. exists 0%nat, m. rewrite !Nat.add_0_r.
    split; [done|]. split; [done|]. split; [done|]. split; [|by rewrite take_0].
    intros i mi Hi. lia. }
  set (w1 := mkWorld _ _ _ _).
  assert (Hlen : ∀ i, (length (oracleCalls w1) + i)%nat
                       = (length (oracleCalls w) + S i)%nat).
  { intros i. subst w1. simpl. rewrite length_app. simpl. lia. }
  specialize (IH (S idx) w1).
  destruct (anchorScan c layer (S idx) ms w1) as [[[[b|] k]|] w2]; simpl in *;
    [| |done].
  - destruct IH as (j & mj & -> & Hj & Hans & Hbefore & Hcalls).
    exists (S j), mj. split; [lia|]. split; [done|].
    split; [by rewrite <- Hlen|]. split.
    + intros [|i] mi Hi Hmi; simpl in Hmi.
      * simplify_eq. by rewrite Nat.add_0_r.
      * rewrite <- Hlen. apply Hbefore; [lia | done].
    + rewrite Hcalls. subst w1. simpl. by rewrite <- app_assoc.
  - destruct IH as (-> & Hall & Hcalls). split; [done|]. split.
    + intros [|i] mi Hmi; simpl in Hmi.
      * simplify_eq. by rewrite Nat.add_0_r.
      * rewrite <- Hlen. by apply Hall.
    + rewrite Hcalls. subst w1. simpl. by rewrite <- app_assoc.
Qed.

Lemma anchorScan_calls_prefix c layer idx messages w :
  oracleCalls w `prefix_of` oracleCalls (anchorScan c layer idx messages w).2.
Proof.
  pose proof (anchorScan_from c layer idx messages w) as H.
  destruct (anchorScan c layer idx messages w) as [[[[b|] k]|] w2]; simpl in *.
  - destruct H as (j & mj & _ & _ & _ & _ & ->). by eexists.
  - destruct H as (_ & _ & ->). by eexists.
  - done.
Qed.

End AnchorScan.

(** The anchor scan returns the first row of the window whose balance query
    is answered, with that answer as anchor balance and the row's index as
    start index, after one query per row up to and including that row; when
    no query is answered it returns a [nil] anchor and index 0 after one
    query per row of the window.  It never panics. *)
Theorem anchor_scan_stops_at_first_answer (c : LogicMessengerCrossChain)
    (layer : LayerType) (messages : list MessengerMessageMatch) (w : World) :
  match (anchorScan c layer 0 messages w).1 with
  | Done (Some startBalance, startIndex) =>
      ∃ m,
        messages !! startIndex = Some m
        ∧ clientBalanceAt c layer (length (oracleCalls w) + startIndex)
            (blockNumberOf layer m) = Some startBalance
        ∧ (∀ i mi, (i < startIndex)%nat → messages !! i = Some mi →
                   clientBalanceAt c layer (length (oracleCalls w) + i)
                     (blockNumberOf layer mi) = None)
        ∧ oracleCalls (anchorScan c layer 0 messages w).2
          = oracleCalls w
            ++ ((λ m, (layer, blockNumberOf layer m))
                  <$> take (S startIndex) messages)
  | Done (None, startIndex) =>
      startIndex = 0%nat
      ∧ (∀ i mi, messages !! i = Some mi →
                 clientBalanceAt c layer (length (oracleCalls w) + i)
                   (blockNumberOf layer mi) = None)
      ∧ oracleCalls (anchorScan c layer 0 messages w).2
        = oracleCalls w ++ ((λ m, (layer, blockNumberOf layer m)) <$> messages)
  | Panicked => False
  end.
Proof.
  pose proof (anchorScan_from c layer 0 messages w) as H.
  destruct (anchorScan c layer 0 messages w) as [[[[b|] k]|] w2]; simpl in *;
    [|done|done].
  destruct H as (j & mj & -> & Hj & Hans & Hbefore & Hcalls).
  exists mj. done.
Qed.

(** The bisector panics only when its anchor scan has found no anchor:
    with an anchor it always runs to the end of the window. *)
Theorem bisector_panics_only_without_anchor (K : TypesConsts)
    (c : LogicMessengerCrossChain) (layer : LayerType)
    (messages : list MessengerMessageMatch) (w : World) :
  (checkBlockBalanceOneByOne c layer messages w).1 = Panicked →
  (anchorScan c layer 0 messages w).1 = Done (None, 0%nat).
Proof.
  unfold checkBlockBalanceOneByOne, bind.
  pose proof (anchorScan_from c layer 0 messages w) as H.
  destruct (anchorScan c layer 0 messages w) as [[[[b|] k]|] w1]; simpl in *;
    [| |done].
  - destruct (bisectLoop_reports c layer messages b k
                (indicesAfter k (length messages)) w1) as [Hdone _].
    rewrite Hdone. done.
  - destruct H as (-> & _). done.
Qed.

Lemma bisector_panics_only_without_anchor_witness :
  (anchorScan recoveringLogic Layer1 0 scenarioA
     (mkWorld (storeOf scenarioA) [] [] [])).1
  = Done (None, 0%nat).
Proof.
  apply (bisector_panics_only_without_anchor sampleConsts recoveringLogic Layer1
           scenarioA (mkWorld (storeOf scenarioA) [] [] [])).
  by vm_compute.
Defined.

(** ** Which runs of [checkETH] query a balance *)

Section QueryHistory.
Context {K : TypesConsts}.
Implicit Types (c : LogicMessengerCrossChain) (w : World).

Lemma bisectStep_calls_prefix c layer messages anchor startIndex i w :
  oracleCalls w
  `prefix_of` oracleCalls (bisectStep c layer messages anchor startIndex i w).2.
Proof.
  unfold bisectStep. destruct (messages !! i) as [mi|]; [|done].
  destruct (sameBlockAsNext layer messages i); [done|].
  unfold bind. rewrite BalanceAt_run.
  destruct (clientBalanceAt c layer _ _) as [e|]; [|by eexists].
  unfold liftOutcome.
  destruct (checkBalance layer anchor e _) as [[id|[] ex ac]|]; by eexists.
Qed.

Lemma bisectLoop_calls_prefix c layer messages anchor startIndex indices w :
  oracleCalls w
  `prefix_of`
  oracleCalls (bisectLoop c layer messages anchor startIndex indices w).2.
Proof.
  revert w. induction indices as [|i rest IH]; intros w; [done|].
  cbn [bisectLoop]. unfold bind.
  pose proof (bisectStep_calls_prefix c layer messages anchor startIndex i w) as H1.
  destruct (bisectStep c layer messages anchor startIndex i w) as [[[]|] w1];
    simpl in *; [|done].
  etrans; [exact H1 | apply IH].
Qed.

Lemma checkBlockBalanceOneByOne_calls_prefix c layer messages w :
  oracleCalls w `prefix_of` oracleCalls (checkBlockBalanceOneByOne c layer messages w).2.
Proof.
  unfold checkBlockBalanceOneByOne, bind.
  pose proof (anchorScan_calls_prefix c layer 0 messages w) as H1.
  destruct (anchorScan c layer 0 messages w) as [[a|] w1]; simpl in *; [|done].
  etrans; [exact H1 | apply bisectLoop_calls_prefix].
Qed.

End QueryHistory.

(** [checkETH] queries no balance exactly on the stale-block bypass.  On
    every other run, in particular on every run for layer 2, its first
    action is the balance query at the end block of the window. *)
Theorem checkETH_queries_unless_bypassed (K : TypesConsts)
    (c : LogicMessengerCrossChain) (layer : LayerType)
    (startBlockNumber endBlockNumber latestBlockNumber startBalance : Z)
    (messages : list MessengerMessageMatch) (w : World) :
  let r := checkETH c layer startBlockNumber endBlockNumber latestBlockNumber
             startBalance messages w in
  if isLayer1 layer
     && ((endBlockNumber + ethBalanceGap) mod 2 ^ 64 <? latestBlockNumber)
  then oracleCalls r.2 = oracleCalls w
  else (oracleCalls w ++ [(layer, endBlockNumber)]) `prefix_of` oracleCalls r.2.
Proof.
  intros r. subst r. unfold checkETH.
  destruct (isLayer1 layer && _).
  - apply computeBlockBalance_frame.
  - unfold bind. rewrite BalanceAt_run.
    destruct (clientBalanceAt c layer _ _) as [e|]; [|done].
    unfold liftOutcome.
    destruct (checkBalance layer (Some startBalance) e messages)
      as [[id|[] ex ac]|]; [done| | |done].
    + match goal with |- context [computeBlockBalance c layer messages startBalance ?w1] =>
        destruct (computeBlockBalance_frame c layer messages startBalance w1)
          as (_ & -> & _) end.
      done.
    + match goal with |- context [checkBlockBalanceOneByOne c layer messages ?w1] =>
        exact (checkBlockBalanceOneByOne_calls_prefix c layer messages w1) end.
Qed.

(** ** Invocations that cannot reach a window *)

(** When the head query or one of the three store queries of
    [CheckETHBalance] fails, the invocation ends normally and has written
    nothing, attempted no row update and sent no alert. *)
Theorem invocation_aborts_on_failed_query (K : TypesConsts)
    (c : LogicMessengerCrossChain) (layerType : LayerType) (w : World) :
  getLatestBlockNumber c layerType = None
  ∨ GetETHCheckStartBlockNumberAndBalance c (db w) layerType = None
  ∨ GetUncheckedLatestETHMessageMatch c (db w) layerType messageLimit = None
  ∨ (∀ startBlockNumber endBlockNumber,
       GetETHMessageMatchByBlockRange c (db w) layerType startBlockNumber
         endBlockNumber = None) →
  let r := CheckETHBalance c layerType w in
  r.1 = Done tt
  ∧ db r.2 = db w
  ∧ updateCalls r.2 = updateCalls w
  ∧ alerts r.2 = alerts w.
Proof.
  intros Hfail r. subst r.
  unfold CheckETHBalance, bind, getDb, seedStartBalance, ret.
  destruct (getLatestBlockNumber c layerType) as [latest|]; [|done].
  destruct (GetETHCheckStartBlockNumberAndBalance c (db w) layerType)
    as [stored|] eqn:Hstart; [|done].
  assert (Hrange : ∀ first others,
            GetUncheckedLatestETHMessageMatch c (db w) layerType messageLimit
            = Some (first :: others) →
            GetETHMessageMatchByBlockRange c (db w) layerType
              (blockNumberOf layerType first)
              (blockNumberOf layerType (List.last others first)) = None).
  { intros first others Hun. destruct Hfail as [?|[?|[?|Hr]]]; [congruence..|].
    apply Hr. }
  destruct stored as [sb|]; [|destruct layerType].
  - destruct (GetUncheckedLatestETHMessageMatch c (db w) layerType messageLimit)
      as [[|first others]|] eqn:Hun; [done| |done].
    by rewrite (Hrange first others eq_refl).
  - destruct (GetUncheckedLatestETHMessageMatch c (db w) Layer1 messageLimit)
      as [[|first others]|] eqn:Hun; [done| |done].
    by rewrite (Hrange first others eq_refl).
  - rewrite BalanceAt_run.
    destruct (clientBalanceAt c Layer2 _ _) as [sb|]; [|done].
    cbn [db].
    destruct (GetUncheckedLatestETHMessageMatch c (db w) Layer2 messageLimit)
      as [[|first others]|] eqn:Hun; [done| |done].
    by rewrite (Hrange first others eq_refl).
Qed.

Lemma invocation_aborts_on_failed_query_witness :
  alerts (CheckETHBalance (K := sampleConsts) rangelessLogic Layer2
            (mkWorld (storeOf scenarioA) [] [] [])).2
  = [].
Proof.
  apply (invocation_aborts_on_failed_query sampleConsts rangelessLogic Layer2
           (mkWorld (storeOf scenarioA) [] [] [])).
  right. right. right. intros s e. reflexivity.
Defined.

(** ** What the commit set contains and what a commit touches *)

Section CommitContent.
Context {K : TypesConsts}.
Implicit Types (c : LogicMessengerCrossChain) (w : World).

Lemma buildBlockNumberAmountMap_decodable layer (m0 : gmap Z Z) ms :
  Forall decodable ms → is_Some (buildBlockNumberAmountMap layer m0 ms).
Proof.
  intros Hdec. revert m0.
  induction Hdec as [|v ms [amount Ham] _ IH]; intros m0; simpl; [done|].
  rewrite Ham. apply IH.
Qed.

Lemma walkBlocks_ids layer (bm : gmap Z Z) bal last ms :
  ID <$> walkBlocks layer bm bal last ms = ID <$> ms.
Proof.
  revert bal last. induction ms as [|v ms IH]; intros bal last; [done|].
  cbn [walkBlocks fmap list_fmap]. f_equal.
  - by destruct layer.
  - apply IH.
Qed.

Lemma walkBlocks_shape layer (bm : gmap Z Z) bal last ms :
  Forall (λ u, u = balanceUpdate layer (ID u) (balanceOf layer u))
    (walkBlocks layer bm bal last ms).
Proof.
  revert bal last. induction ms as [|v ms IH]; intros bal last; [constructor|].
  cbn [walkBlocks]. constructor; [by destruct layer | apply IH].
Qed.

Lemma updateETHMessageMatches_ids layer ms startBalance updates :
  updateETHMessageMatches layer ms startBalance = Some updates →
  ID <$> updates ≡ₚ ID <$> ms.
Proof.
  unfold updateETHMessageMatches.
  destruct (buildBlockNumberAmountMap layer ∅ ms) as [bm|]; [|done].
  intros [= <-]. rewrite sortByID_perm. by rewrite walkBlocks_ids.
Qed.







End CommitContent.

(** A commit set exists exactly for the windows whose amounts all decode.
    It has one update per row of the window, under the row's id, and every
    update is an otherwise empty row that carries a balance and the status
    [Valid] of the layer. *)
Theorem commit_set_has_one_update_per_row (K : TypesConsts) (layer : LayerType)
    (messages : list MessengerMessageMatch) (startBalance : Z) :
  match updateETHMessageMatches layer messages startBalance with
  | Some updates =>
      Forall decodable messages
      ∧ ID <$> updates ≡ₚ ID <$> messages
      ∧ Forall (λ u, u = balanceUpdate layer (ID u) (balanceOf layer u)
                     ∧ balanceStatusOf layer u = ETHBalanceStatusTypeValid)
          updates
  | None => ¬ Forall decodable messages
  end.
Proof.
  destruct (updateETHMessageMatches layer messages startBalance) as [us|] eqn:Hus.
  - split; [|split].
    + unfold updateETHMessageMatches in Hus.
      destruct (buildBlockNumberAmountMap layer ∅ messages) as [bm|] eqn:Hbm;
        [|done].
      by eapply buildBlockNumberAmountMap_Some.
    + by eapply updateETHMessageMatches_ids.
    + unfold updateETHMessageMatches in Hus.
      destruct (buildBlockNumberAmountMap layer ∅ messages) as [bm|]; [|done].
      injection Hus as <-. rewrite sortByID_perm.
      eapply Forall_impl; [apply walkBlocks_shape|].
      intros u Hu. split; [exact Hu|]. rewrite Hu. by destruct layer.
  - intros Hdec. unfold updateETHMessageMatches in Hus.
    destruct (buildBlockNumberAmountMap_decodable layer ∅ messages Hdec) as [bm Hbm].
    by rewrite Hbm in Hus.
Qed.


(** ** The derivation and the aggregate check agree at the end of the window *)

Section EndOfWindow.
Context {K : TypesConsts}.
Implicit Types (c : LogicMessengerCrossChain) (w : World).

Lemma deltaUpTo_all layer ms b :
  Forall (λ m, blockNumberOf layer m ≤ b) ms →
  deltaUpTo layer ms b = sumDeltas layer ms.
Proof.
  unfold deltaUpTo. induction 1 as [|m ms Hm _ IH]; simpl; [done|].
  rewrite IH. destruct (Z.leb_spec (blockNumberOf layer m) b); [done|lia].
Qed.

Lemma sorted_last_is_max layer ms ml :
  StronglySorted (blockLe layer) ms → last ms = Some ml →
  Forall (λ m, blockNumberOf layer m ≤ blockNumberOf layer ml) ms.
Proof.
  intros Hsorted Hlast. apply last_Some in Hlast as [pre ->].
  apply StronglySorted_app in Hsorted as (Hcross & _ & _).
  apply Forall_app. split.
  - apply Forall_forall. intros m Hm. apply (Hcross m ml Hm). constructor.
  - constructor; [lia | constructor].
Qed.

(** A check that returns [ok] has decoded every amount and found the
    expected balance equal to the end balance. *)
Lemma checkBalance_ok layer startBalance endBalance ms expected actual :
  distinct_events K →
  checkBalance layer (Some startBalance) endBalance ms
  = Done (CheckDone true expected actual) →
  Forall decodable ms ∧ startBalance + sumDeltas layer ms = endBalance.
Proof.
  intros HK Hcheck.
  assert (Hdec : Forall decodable ms).
  { unfold checkBalance in Hcheck.
    destruct (balanceDiffLoop layer 0 ms) as [d|id] eqn:Hloop; [|done].
    by eapply balanceDiffLoop_inl. }
  split; [done|].
  rewrite (checkBalance_decodable layer startBalance endBalance ms HK Hdec) in Hcheck.
  injection Hcheck as Heq _ _. by apply Z.eqb_eq.
Qed.

End EndOfWindow.

(** On a window in ascending block order with positive block numbers that
    the aggregate check has validated against [endBalance], the derivation
    gives every row of the last block exactly [endBalance]: the balance the
    next window starts from is the one that was checked on chain. *)
Theorem derivation_ends_at_checked_balance (K : TypesConsts) (layer : LayerType)
    (messages : list MessengerMessageMatch) (startBalance endBalance : Z)
    (expected actual : Z) (ml : MessengerMessageMatch) :
  distinct_events K →
  StronglySorted (blockLe layer) messages →
  Forall (λ m, 0 < blockNumberOf layer m) messages →
  last messages = Some ml →
  checkBalance layer (Some startBalance) endBalance messages
  = Done (CheckDone true expected actual) →
  ∃ updates,
    updateETHMessageMatches layer messages startBalance = Some updates
    ∧ ∀ m, m ∈ messages →
           blockNumberOf layer m = blockNumberOf layer ml →
           balanceUpdate layer (ID m) endBalance ∈ updates.
Proof.
  intros HK Hsorted Hpos Hlast Hcheck.
  destruct (checkBalance_ok layer startBalance endBalance messages expected actual
              HK Hcheck) as [Hdec Hsum].
  eexists. split; [by apply updateETHMessageMatches_running|].
  intros m Hm Hblock. rewrite sortByID_perm. apply list_elem_of_fmap.
  exists m. split; [|done]. f_equal.
  unfold runningBalance. rewrite Hblock.
  pose proof (deltaUpTo_split layer messages (blockNumberOf layer ml)) as Hsplit.
  rewrite (deltaUpTo_all layer messages (blockNumberOf layer ml)) in Hsplit
    by (by apply sorted_last_is_max).
  lia.
Qed.

(** Scenario C validated at 115: the row of block 12 gets 115. *)
Lemma derivation_ends_at_checked_balance_witness :
  ∃ updates,
    updateETHMessageMatches (K := sampleConsts) Layer1 scenarioC 100 = Some updates
    ∧ balanceUpdate (K := sampleConsts) Layer1 3 115 ∈ updates.
Proof.
  assert (Hsorted : StronglySorted (blockLe Layer1) scenarioC)
    by (repeat constructor; unfold blockLe; simpl; lia).
  assert (Hpos : Forall (λ x, 0 < blockNumberOf Layer1 x) scenarioC)
    by (repeat constructor; simpl; lia).
  destruct (derivation_ends_at_checked_balance sampleConsts Layer1 scenarioC
              100 115 115 115 (l1Row 3 2 12 "20") sampleConsts_distinct
              Hsorted Hpos eq_refl eq_refl) as (updates & Hsome & Hlast).
  exists updates. split; [exact Hsome|].
  apply (Hlast (l1Row 3 2 12 "20")); [|reflexivity].
  do 2 (apply elem_of_cons; right). constructor.
Defined.

(** ** What a successful commit leaves in the table *)

(** On a decodable window in ascending block order with positive block
    numbers and pairwise different ids, when no row update fails,
    [computeBlockBalance] leaves in every row of the window that the table
    holds the running balance of the row's block, written by
    [UpdateETHBalance] into both the balance and the status column of the
    layer. *)
Theorem committed_rows_hold_running_balance (K : TypesConsts)
    (c : LogicMessengerCrossChain) (layer : LayerType)
    (messages : list MessengerMessageMatch) (startBalance : Z) (w : World) :
  distinct_events K →
  Forall decodable messages →
  StronglySorted (blockLe layer) messages →
  Forall (λ m, 0 < blockNumberOf layer m) messages →
  NoDup (ID <$> messages) →
  (∀ n u, updateFails c n u = false) →
  ∀ m, m ∈ messages →
       db (computeBlockBalance c layer messages startBalance w).2 !! ID m
       = writeETHBalance layer
           (balanceUpdate layer (ID m)
              (runningBalance layer startBalance messages (blockNumberOf layer m)))
         <$> db w !! ID m.
Proof.
  intros HK Hdec Hsorted Hpos Hnd Hok m Hm.
  unfold computeBlockBalance.
  rewrite (updateETHMessageMatches_running layer messages startBalance
             HK Hdec Hsorted Hpos).
  set (us := sortByID _).
  unfold bind.
  destruct (Transaction_updateLoop c layer us w) as (_ & _ & _ & Hcases).
  destruct (updateLoop_ok c layer us w) as [Hrun Hall]; [intros; apply Hok|].
  destruct (Transaction (updateLoop c layer us) w) as [o w1]. simpl in *.
  destruct Hcases as [(-> & Hdb & _)|(_ & _ & Hbad)]; [|congruence].
  simpl. rewrite Hdb, Hall.
  set (u := balanceUpdate layer (ID m)
              (runningBalance layer startBalance messages (blockNumberOf layer m))).
  assert (Hid : ID u = ID m) by (subst u; by destruct layer).
  rewrite <- Hid. apply applyAll_lookup.
  - subst us. rewrite sortByID_perm, <- list_fmap_compose.
    erewrite list_fmap_ext; [exact Hnd|].
    intros i x _. simpl. by destruct layer.
  - subst us. rewrite sortByID_perm. apply list_elem_of_fmap. by exists m.
Qed.

Lemma committed_rows_hold_running_balance_witness :
  L1MessengerETHBalance
  <$> db (computeBlockBalance (K := sampleConsts) quietLogic Layer1 scenarioC 100
            (mkWorld (storeOf scenarioC) [] [] [])).2 !! 2
  = Some 135.
Proof.
  assert (Hdec : Forall decodable scenarioC)
    by (repeat constructor; unfold decodable; simpl; eauto).
  assert (Hsorted : StronglySorted (blockLe Layer1) scenarioC)
    by (repeat constructor; unfold blockLe; simpl; lia).
  assert (Hpos : Forall (λ x, 0 < blockNumberOf Layer1 x) scenarioC)
    by (repeat constructor; simpl; lia).
  assert (Hnd : NoDup (ID <$> scenarioC)).
  { apply NoDup_ListNoDup. repeat constructor; simpl; intuition lia. }
  assert (Hm : l1Row 2 1 10 "5" ∈ scenarioC).
  { apply elem_of_cons. right. constructor. }
  pose proof (committed_rows_hold_running_balance sampleConsts quietLogic Layer1
                scenarioC 100 (mkWorld (storeOf scenarioC) [] [] [])
                sampleConsts_distinct Hdec Hsorted Hpos Hnd (λ _ _, eq_refl)
                (l1Row 2 1 10 "5") Hm) as Hrow.
  etrans; [exact (f_equal (fmap L1MessengerETHBalance) Hrow) | by vm_compute].
Defined.

(** ** The selector on spans in block order *)

Section SelectorOrder.
Context {K : TypesConsts}.

#[local] Instance resolved_dec m : Decision (resolved m).
Proof. unfold resolved. apply _. Defined.

Lemma first_unresolved_split (span : list MessengerMessageMatch) :
  Forall resolved span
  ∨ ∃ pre m suf, span = pre ++ m :: suf ∧ Forall resolved pre ∧ ¬ resolved m.
Proof.
  induction span as [|x span IH]; [left; constructor|].
  destruct (decide (resolved x)) as [Hx|Hx].
  - destruct IH as [Hall|(pre & m & suf & -> & Hpre & Hm)].
    + left. by constructor.
    + right. exists (x :: pre), m, suf. split; [done|]. split; [by constructor|done].
  - right. exists [], x, span. split; [done|]. split; [constructor|done].
Qed.

(** In a list in block order the rows below a block form a prefix. *)
Lemma filter_below_prefix layer tb (l : list MessengerMessageMatch) :
  StronglySorted (blockLe layer) l →
  List.filter (λ x, blockNumberOf layer x <? tb) l `prefix_of` l.
Proof.
  induction 1 as [|x l Hl IH Hx]; [done|]. simpl.
  destruct (Z.ltb_spec (blockNumberOf layer x) tb) as [Hlt|Hge].
  - by apply prefix_cons.
  - assert (List.filter (λ y, blockNumberOf layer y <? tb) l = []) as ->.
    { clear IH Hl. induction Hx as [|y l Hy _ IH]; [done|]. simpl.
      unfold blockLe in Hy.
      destruct (Z.ltb_spec (blockNumberOf layer y) tb); [lia|done]. }
    apply prefix_nil.
Qed.

End SelectorOrder.

(** On a span in ascending block order with positive block numbers, the
    window the selector returns is a prefix of the span and contains only
    rows whose ETH amount status is set. *)
Theorem selector_window_is_resolved_prefix (K : TypesConsts) (layer : LayerType)
    (span : list MessengerMessageMatch) :
  StronglySorted (blockLe layer) span →
  Forall (λ m, 0 < blockNumberOf layer m) span →
  truncatedMessageMatches layer span `prefix_of` span
  ∧ Forall resolved (truncatedMessageMatches layer span).
Proof.
  intros Hsorted Hpos.
  destruct (first_unresolved_split span) as [Hall|(pre & m & suf & -> & Hpre & Hm)].
  - unfold truncatedMessageMatches.
    rewrite (findTruncateBlockNumber_all_resolved layer span Hall), truncateLoop_zero.
    done.
  - assert (Hnz : blockNumberOf layer m ≠ 0).
    { apply Forall_app in Hpos as [_ Hpos]. apply Forall_cons in Hpos as [Hpos _].
      lia. }
    rewrite (truncatedMessageMatches_below layer pre m suf Hpre Hm Hnz).
    split; [by apply filter_below_prefix|].
    apply Forall_forall. intros x Hx.
    apply list_elem_of_In, filter_In in Hx as [Hin Hlt].
    apply Z.ltb_lt in Hlt. apply list_elem_of_In, elem_of_app in Hin as [Hin|Hin].
    + rewrite Forall_forall in Hpre. by apply Hpre.
    + apply StronglySorted_app in Hsorted as (_ & _ & Hsuf).
      apply StronglySorted_cons in Hsuf as [Hsuf _].
      apply elem_of_cons in Hin as [->|Hin]; [lia|].
      rewrite Forall_forall in Hsuf. specialize (Hsuf x Hin).
      unfold blockLe in Hsuf. lia.
Qed.

Lemma selector_window_is_resolved_prefix_witness :
  Forall (resolved (K := sampleConsts))
    (truncatedMessageMatches (K := sampleConsts) Layer1
       [l1Row 1 1 10 "30"; unresolvedRow sampleConsts 2 12; l1Row 3 1 12 "4"]).
Proof.
  apply (selector_window_is_resolved_prefix sampleConsts Layer1
           [l1Row 1 1 10 "30"; unresolvedRow sampleConsts 2 12; l1Row 3 1 12 "4"]).
  - repeat constructor; unfold blockLe; simpl; lia.
  - repeat constructor; simpl; lia.
Defined.

(** ** The sub-ranges of the bisector on a consistent ledger *)

Section SubRange.
Context {K : TypesConsts}.
Implicit Types (c : LogicMessengerCrossChain) (w : World).

Lemma sorted_take_drop layer ms n x y :
  StronglySorted (blockLe layer) ms →
  x ∈ take n ms → y ∈ drop n ms →
  blockNumberOf layer x ≤ blockNumberOf layer y.
Proof.
  intros Hsorted Hx Hy. rewrite <- (take_drop n ms) in Hsorted.
  apply StronglySorted_app in Hsorted as (Hcross & _ & _).
  exact (Hcross x y Hx Hy).
Qed.

Lemma sorted_drop_head layer ms n x :
  StronglySorted (blockLe layer) ms → ms !! n = Some x →
  Forall (λ y, blockNumberOf layer x ≤ blockNumberOf layer y) (drop n ms).
Proof.
  intros Hsorted Hx. rewrite <- (take_drop n ms) in Hsorted.
  apply StronglySorted_app in Hsorted as (_ & _ & Hdrop).
  rewrite (drop_S ms x n Hx) in *.
  apply StronglySorted_cons in Hdrop as [Hhd _].
  constructor; [lia | exact Hhd].
Qed.

Lemma sumDeltas_sumWhere layer ms :
  sumDeltas layer ms = sumWhere (λ _, true) layer ms.
Proof. induction ms as [|m ms IH]; simpl; [done|]. by rewrite IH. Qed.

(** The rows up to a boundary are the rows of the blocks up to the
    boundary's block. *)
Lemma sumDeltas_take_boundary layer ms i mi :
  StronglySorted (blockLe layer) ms →
  ms !! i = Some mi →
  isBoundary layer ms i = true →
  sumDeltas layer (take (S i) ms) = deltaUpTo layer ms (blockNumberOf layer mi).
Proof.
  intros Hsorted Hmi Hb.
  unfold deltaUpTo. rewrite <- (take_drop (S i) ms) at 2.
  rewrite sumWhere_app, sumDeltas_sumWhere.
  assert (sumWhere (λ m, blockNumberOf layer m <=? blockNumberOf layer mi) layer
            (drop (S i) ms) = 0) as ->.
  { apply sumWhere_none. apply Forall_forall. intros y Hy. simpl.
    destruct (drop (S i) ms) as [|next rest] eqn:Hdrop; [by apply elem_of_nil in Hy|].
    assert (Hnext : ms !! S i = Some next).
    { rewrite <- (Nat.add_0_r (S i)), <- lookup_drop, Hdrop. done. }
    assert (blockNumberOf layer mi ≠ blockNumberOf layer next) as Hne.
    { unfold isBoundary, sameBlockAsNext in Hb. rewrite Hmi, Hnext in Hb.
      apply negb_true_iff, Z.eqb_neq in Hb. done. }
    assert (blockNumberOf layer mi ≤ blockNumberOf layer next) as Hle.
    { apply (sorted_take_drop layer ms (S i)); [done| |].
      - rewrite (take_S_r ms i mi Hmi). apply elem_of_app. right. constructor.
      - rewrite Hdrop. constructor. }
    pose proof (sorted_drop_head layer ms (S i) next Hsorted Hnext) as Hall.
    rewrite Hdrop, Forall_forall in Hall. specialize (Hall y Hy).
    destruct (Z.leb_spec (blockNumberOf layer y) (blockNumberOf layer mi)); lia. }
  rewrite Z.add_0_r. apply sumWhere_ext. apply Forall_forall. intros x Hx.
  simpl. symmetry. apply Z.leb_le.
  rewrite (take_S_r ms i mi Hmi) in Hx. apply elem_of_app in Hx as [Hx|Hx].
  - apply (sorted_take_drop layer ms i); [done..|].
    rewrite (drop_S ms mi i Hmi). constructor.
  - apply list_elem_of_singleton in Hx as ->. lia.
Qed.

(** The balance at the anchor row's block already contains the rows of that
    block from the anchor row on. *)
Lemma deltaUpTo_anchor layer ms si ma :
  StronglySorted (blockLe layer) ms →
  ms !! si = Some ma →
  deltaUpTo layer ms (blockNumberOf layer ma)
  = sumDeltas layer (take si ms) + anchorOverlap layer ms si.
Proof.
  intros Hsorted Hma. unfold anchorOverlap, deltaUpTo. rewrite Hma.
  rewrite <- (take_drop si ms) at 1. rewrite sumWhere_app, sumDeltas_sumWhere.
  f_equal.
  - apply sumWhere_ext. apply Forall_forall. intros x Hx. simpl.
    apply Z.leb_le. apply (sorted_take_drop layer ms si); [done..|].
    rewrite (drop_S ms ma si Hma). constructor.
  - apply sumWhere_ext.
    eapply Forall_impl; [exact (sorted_drop_head layer ms si ma Hsorted Hma)|].
    intros y Hy. simpl in *.
    destruct (Z.leb_spec (blockNumberOf layer y) (blockNumberOf layer ma)),
      (Z.eqb_spec (blockNumberOf layer y) (blockNumberOf layer ma)); lia.
Qed.

Lemma sumDeltas_slice layer ms si i :
  (si ≤ S i)%nat →
  sumDeltas layer (take (S i) ms)
  = sumDeltas layer (take si ms) + sumDeltas layer (slice ms si (S i)).
Proof.
  intros Hle. unfold slice. rewrite <- sumDeltas_app, take_take_drop.
  by replace (si + (S i - si))%nat with (S i) by lia.
Qed.

End SubRange.

(** A consistent ledger: the balance before the window is [base] and the
    node reports, at the block of every row, [base] plus the deltas of the
    window up to that block.  The window is in ascending block order and the
    anchor is the true balance at the block of the anchor row.  Then the
    sub-range check the bisector runs at a boundary expects the true balance
    plus the net delta of the anchor block's rows from the anchor row on,
    because the sub-range [messages[startIndex:i+1]] starts at the anchor
    row itself: the bisector sends an alert for the boundary exactly when
    that net delta is not zero. *)
Theorem bisector_counts_anchor_rows_twice (K : TypesConsts)
    (c : LogicMessengerCrossChain) (layer : LayerType)
    (messages : list MessengerMessageMatch) (w : World)
    (base : Z) (startIndex i : nat) (anchorRow mi : MessengerMessageMatch) :
  distinct_events K →
  Forall decodable messages →
  StronglySorted (blockLe layer) messages →
  messages !! startIndex = Some anchorRow →
  messages !! i = Some mi →
  (startIndex < i)%nat →
  isBoundary layer messages i = true →
  clientBalanceAt c layer (length (oracleCalls w)) (blockNumberOf layer mi)
  = Some (base + deltaUpTo layer messages (blockNumberOf layer mi)) →
  let anchor := base + deltaUpTo layer messages (blockNumberOf layer anchorRow) in
  let actual := base + deltaUpTo layer messages (blockNumberOf layer mi) in
  let overlap := anchorOverlap layer messages startIndex in
  bisectStep c layer messages (Some anchor) startIndex i w
  = (Done tt,
     mkWorld (db w) (oracleCalls w ++ [(layer, blockNumberOf layer mi)])
       (updateCalls w)
       (alerts w
        ++ if overlap =? 0 then []
           else [mkAlert mi (Some (actual + overlap)) (Some actual)])).
Proof.
  intros HK Hdec Hsorted Hanchor Hmi Hlt Hb Hanswer anchor actual overlap.
  assert (Hslice : Forall decodable (slice messages startIndex (S i))).
  { unfold slice. by apply Forall_take, Forall_drop. }
  assert (Hexpected :
    anchor + sumDeltas layer (slice messages startIndex (S i)) = actual + overlap).
  { subst anchor actual overlap.
    rewrite (deltaUpTo_anchor layer messages startIndex anchorRow Hsorted Hanchor).
    rewrite <- (sumDeltas_take_boundary layer messages i mi Hsorted Hmi Hb).
    rewrite (sumDeltas_slice layer messages startIndex i) by lia. lia. }
  fold actual in Hanswer.
  unfold bisectStep. rewrite Hmi.
  unfold isBoundary in Hb. rewrite Hmi in Hb. apply negb_true_iff in Hb.
  rewrite Hb. unfold bind. rewrite BalanceAt_run, Hanswer.
  unfold liftOutcome.
  rewrite (checkBalance_decodable layer anchor actual
             (slice messages startIndex (S i)) HK Hslice).
  rewrite Hexpected.
  destruct (Z.eqb_spec (actual + overlap) actual) as [Heq|Hne].
  - assert (overlap = 0) as -> by lia. simpl. by rewrite app_nil_r.
  - destruct (Z.eqb_spec overlap 0) as [->|_]; [lia|]. done.
Qed.

Lemma bisector_counts_anchor_rows_twice_witness :
  alerts
    (bisectStep (K := sampleConsts) consistentLogic Layer1 scenarioA (Some 130)
       0 1 (mkWorld (storeOf scenarioA) [(Layer1, 10)] [] [])).2
  = [mkAlert (l1Row 2 2 12 "20") (Some 140) (Some 110)].
Proof.
  assert (Hdec : Forall decodable scenarioA)
    by (repeat constructor; unfold decodable; simpl; eauto).
  assert (Hsorted : StronglySorted (blockLe Layer1) scenarioA)
    by (repeat constructor; unfold blockLe; simpl; lia).
  pose proof (bisector_counts_anchor_rows_twice sampleConsts consistentLogic
                Layer1 scenarioA (mkWorld (storeOf scenarioA) [(Layer1, 10)] [] [])
                100 0 1 (l1Row 1 1 10 "30") (l1Row 2 2 12 "20")
                sampleConsts_distinct Hdec Hsorted eq_refl eq_refl
                (Nat.lt_0_succ 0) eq_refl eq_refl) as Hstep.
  exact (f_equal (λ r, alerts r.2) Hstep).
Defined.

(** * Properties of the watcher cursors *)

(** After any sequence of stores, each cursor holds the last number stored
    in it (its initial number when none was), whatever was stored in the
    other cursor in between, and the watcher is ready exactly when those
    two numbers are equal. *)
Theorem cursors_hold_last_store (l2 : L2Watcher.L2Watcher)
    (stores : list L2Watcher.Store) :
  L2Watcher.StartNumber (L2Watcher.storeAll l2 stores)
  = L2Watcher.lastStart (L2Watcher.StartNumber l2) stores
  ∧ L2Watcher.SafeNumber (L2Watcher.storeAll l2 stores)
    = L2Watcher.lastSafe (L2Watcher.SafeNumber l2) stores
  ∧ L2Watcher.IsReady (L2Watcher.storeAll l2 stores)
    = (L2Watcher.lastStart (L2Watcher.StartNumber l2) stores
       =? L2Watcher.lastSafe (L2Watcher.SafeNumber l2) stores).
Proof.
  assert (H : L2Watcher.StartNumber (L2Watcher.storeAll l2 stores)
              = L2Watcher.lastStart (L2Watcher.StartNumber l2) stores
              ∧ L2Watcher.SafeNumber (L2Watcher.storeAll l2 stores)
                = L2Watcher.lastSafe (L2Watcher.SafeNumber l2) stores).
  { revert l2. induction stores as [|s stores IH]; intros l2; [done|].
    unfold L2Watcher.storeAll, L2Watcher.lastStart, L2Watcher.lastSafe in *.
    simpl. destruct (IH (L2Watcher.store l2 s)) as [H1 H2].
    rewrite H1, H2. by destruct s. }
  destruct H as [H1 H2]. split; [done|]. split; [done|].
  unfold L2Watcher.IsReady. by rewrite H1, H2.
Qed.

(** * Properties of the store functions *)

Section StoreUpdates.
Context {O : Orm.OrmConsts}.
Import Gorm.

Lemma UpdateBlockStatus_table (m : DB) now layer s e :
  driverError m = false →
  Orm.UpdateBlockStatus m now layer s e
  = (false,
     mkDB ((λ r, if pendingIn layer s e r
                 then assign [(blockStatusColumn layer, Orm.BlockStatusTypeValid)] now r
                 else r) <$> table m)
       false).
Proof.
  intros Hok. unfold Orm.UpdateBlockStatus, Update, Updates.
  destruct layer; simpl; rewrite Hok; f_equal; f_equal;
    apply list_fmap_ext; intros i r _; unfold selects, pendingIn; simpl;
    destruct (visible r), (colEq _ Orm.BlockStatusTypeInvalid r),
      (colGe _ s r), (colLe _ e r); done.
Qed.

Lemma blockStatusColumn_not_stamp layer : blockStatusColumn layer ≠ "updated_at"%string.
Proof. by destruct layer. Qed.

Lemma blockStatusColumn_not_deleted layer :
  blockStatusColumn layer ≠ "deleted_at"%string.
Proof. by destruct layer. Qed.

Lemma colEq_assign_status layer now (r : Row) v :
  colEq (blockStatusColumn layer) v
    (assign [(blockStatusColumn layer, Orm.BlockStatusTypeValid)] now r)
  = (Orm.BlockStatusTypeValid =? v).
Proof.
  unfold colEq, colTest, assign. simpl.
  rewrite lookup_insert_ne by (symmetry; apply blockStatusColumn_not_stamp).
  by rewrite lookup_insert_eq.
Qed.

Lemma pendingIn_after layer s e now (r : Row) :
  Orm.BlockStatusTypeInvalid ≠ Orm.BlockStatusTypeValid →
  pendingIn layer s e
    (if pendingIn layer s e r
     then assign [(blockStatusColumn layer, Orm.BlockStatusTypeValid)] now r
     else r)
  = false.
Proof.
  intros Hne. destruct (pendingIn layer s e r) eqn:Hp; [|done].
  unfold pendingIn. rewrite colEq_assign_status.
  destruct (Z.eqb_spec Orm.BlockStatusTypeValid Orm.BlockStatusTypeInvalid);
    [congruence|].
  by rewrite andb_false_r.
Qed.

End StoreUpdates.

(** [UpdateBlockStatus] on a working database returns no error and keeps
    the rows of the table in place.  A live row of the layer with invalid
    block status and block number in [[startBlockNumber, endBlockNumber]]
    gets block status valid and a new [updated_at], and keeps every other
    column; every other row is untouched.  Afterwards no such row is left,
    so running the same update again changes nothing. *)
Theorem UpdateBlockStatus_validates_the_range
    (O : Orm.OrmConsts) (m : Gorm.DB) (now : Z) (layer : LayerType)
    (startBlockNumber endBlockNumber : Z) :
  Gorm.driverError m = false →
  Orm.BlockStatusTypeInvalid ≠ Orm.BlockStatusTypeValid →
  let r := Orm.UpdateBlockStatus m now layer startBlockNumber endBlockNumber in
  r.1 = false
  ∧ (∀ i row,
       Gorm.table m !! i = Some row →
       ∃ row',
         Gorm.table r.2 !! i = Some row'
         ∧ if pendingIn layer startBlockNumber endBlockNumber row
           then row' !! blockStatusColumn layer
                = Some (Gorm.VInt Orm.BlockStatusTypeValid)
                ∧ row' !! "updated_at"%string = Some (Gorm.VInt now)
                ∧ ∀ col, col ≠ blockStatusColumn layer →
                         col ≠ "updated_at"%string →
                         row' !! col = row !! col
           else row' = row)
  ∧ length (Gorm.table r.2) = length (Gorm.table m)
  ∧ Forall (λ row', pendingIn layer startBlockNumber endBlockNumber row' = false)
      (Gorm.table r.2)
  ∧ ∀ now', Orm.UpdateBlockStatus r.2 now' layer startBlockNumber endBlockNumber
            = (false, r.2).
Proof.
  intros Hok Hne r. subst r.
  rewrite (UpdateBlockStatus_table m now layer startBlockNumber endBlockNumber Hok).
  cbn [fst snd Gorm.table].
  assert (Hafter :
    Forall (λ row', pendingIn layer startBlockNumber endBlockNumber row' = false)
      ((λ r, if pendingIn layer startBlockNumber endBlockNumber r
             then Gorm.assign
                    [(blockStatusColumn layer, Orm.BlockStatusTypeValid)] now r
             else r) <$> Gorm.table m)).
  { apply Forall_fmap, Forall_forall. intros row _. simpl.
    by apply pendingIn_after. }
  split; [done|]. split; [|split; [by rewrite length_fmap|split; [done|]]].
  - intros i row Hrow. rewrite list_lookup_fmap, Hrow. simpl.
    eexists. split; [done|].
    destruct (pendingIn layer startBlockNumber endBlockNumber row); [|done].
    unfold Gorm.assign. simpl. split; [|split].
    + rewrite lookup_insert_ne by (symmetry; apply blockStatusColumn_not_stamp).
      by rewrite lookup_insert_eq.
    + by rewrite lookup_insert_eq.
    + intros col H1 H2. by rewrite !lookup_insert_ne.
  - intros now'.
    rewrite UpdateBlockStatus_table by done. cbn [Gorm.table]. f_equal. f_equal.
    rewrite <- (list_fmap_id (_ <$> Gorm.table m)) at 2.
    apply Forall_fmap_ext_1. eapply Forall_impl; [exact Hafter|].
    intros row Hrow. simpl in *. by rewrite Hrow.
Qed.

Lemma UpdateBlockStatus_validates_the_range_witness :
  Forall (λ row', pendingIn (O := sampleOrmConsts) Layer1 5 15 row' = false)
    (Gorm.table
       (Orm.UpdateBlockStatus (O := sampleOrmConsts) sampleStore 77 Layer1 5 15).2).
Proof.
  assert (Hne : @Orm.BlockStatusTypeInvalid sampleOrmConsts
                ≠ @Orm.BlockStatusTypeValid sampleOrmConsts) by (simpl; lia).
  exact (proj1 (proj2 (proj2 (proj2
           (UpdateBlockStatus_validates_the_range sampleOrmConsts
              sampleStore 77 Layer1 5 15 eq_refl Hne))))).
Defined.

Section CrossChainStatus.
Context {O : Orm.OrmConsts}.
Import Gorm.

Lemma UpdateCrossChainStatus_table (m : DB) now ids layer status :
  driverError m = false →
  Orm.UpdateCrossChainStatus m now ids layer status
  = (false,
     mkDB ((λ r, if namedBy ids r
                 then assign [(crossChainStatusColumn layer, status);
                              ("check_status"%string, Orm.CheckStatusChecked)] now r
                 else r) <$> table m)
       false).
Proof.
  intros Hok. unfold Orm.UpdateCrossChainStatus, Updates.
  destruct layer; simpl; rewrite Hok; f_equal; f_equal;
    apply list_fmap_ext; intros i r _; unfold selects, namedBy; simpl;
    destruct (visible r), (colIn "id" ids r); done.
Qed.

Lemma crossChainStatusColumn_fresh layer :
  crossChainStatusColumn layer ≠ "updated_at"%string
  ∧ crossChainStatusColumn layer ≠ "check_status"%string
  ∧ crossChainStatusColumn layer ≠ "deleted_at"%string
  ∧ crossChainStatusColumn layer ≠ "id"%string.
Proof. by destruct layer. Qed.

(** The assignment of [UpdateCrossChainStatus] changes neither the id nor
    the deletion mark of a row. *)
Lemma namedBy_assign ids layer status now (r : Row) :
  namedBy ids
    (assign [(crossChainStatusColumn layer, status);
             ("check_status"%string, Orm.CheckStatusChecked)] now r)
  = namedBy ids r.
Proof.
  destruct (crossChainStatusColumn_fresh layer) as (H1 & H2 & H3 & H4).
  unfold namedBy, visible, colIn, colTest, assign. cbn [foldr fst snd].
  by rewrite !lookup_insert_ne.
Qed.

End CrossChainStatus.



(** The two cross-chain status updates of one list of ids, one per layer,
    give the same table in either order when they carry the same time
    stamp: afterwards every named row holds both statuses. *)
Theorem UpdateCrossChainStatus_layers_commute
    (O : Orm.OrmConsts) (m : Gorm.DB) (now : Z) (ids : list Z)
    (status1 status2 : Z) :
  Gorm.driverError m = false →
  (Orm.UpdateCrossChainStatus
     (Orm.UpdateCrossChainStatus m now ids Layer1 status1).2
     now ids Layer2 status2).2
  = (Orm.UpdateCrossChainStatus
       (Orm.UpdateCrossChainStatus m now ids Layer2 status2).2
       now ids Layer1 status1).2.
Proof.
  intros Hok.
  rewrite (UpdateCrossChainStatus_table m now ids Layer1 status1 Hok).
  rewrite (UpdateCrossChainStatus_table m now ids Layer2 status2 Hok).
  cbn [snd]. rewrite !UpdateCrossChainStatus_table by done.
  cbn [snd Gorm.table]. f_equal. rewrite <- !list_fmap_compose.
  apply list_fmap_ext. intros i row _. simpl.
  destruct (namedBy ids row) eqn:Hnamed.
  - rewrite (namedBy_assign ids Layer1), (namedBy_assign ids Layer2), Hnamed.
    unfold Gorm.assign. cbn [foldr fst snd crossChainStatusColumn].
    apply map_eq. intros col.
    repeat match goal with
           | |- context [<[?k := _]> _ !! col] =>
               destruct (decide (k = col)) as [<-|];
                 [rewrite ?lookup_insert_eq; rewrite ?lookup_insert_ne by done;
                  rewrite ?lookup_insert_eq
                 |rewrite !(lookup_insert_ne _ k col) by done]
           end; done.
  - by rewrite Hnamed.
Qed.

Lemma UpdateCrossChainStatus_layers_commute_witness :
  (Orm.UpdateCrossChainStatus (O := sampleOrmConsts)
     (Orm.UpdateCrossChainStatus (O := sampleOrmConsts) sampleStore 77 [1; 3]
        Layer1 4).2
     77 [1; 3] Layer2 5).2
  = (Orm.UpdateCrossChainStatus (O := sampleOrmConsts)
       (Orm.UpdateCrossChainStatus (O := sampleOrmConsts) sampleStore 77 [1; 3]
          Layer2 5).2
       77 [1; 3] Layer1 4).2.
Proof.
  exact (UpdateCrossChainStatus_layers_commute sampleOrmConsts sampleStore 77
           [1; 3] 4 5 eq_refl).
Defined.

Section StoreQueries.
Context {K : TypesConsts} {O : Orm.OrmConsts}.
Import Gorm.

#[local] Instance rowIdLe_trans : Transitive Gorm.idLe.
Proof. intros a b c. unfold Gorm.idLe. lia. Qed.

#[local] Instance rowIdLe_total : Total Gorm.idLe.
Proof. intros a b. unfold Gorm.idLe. lia. Qed.

Lemma byIdAsc_sorted rows : StronglySorted Gorm.idLe (byIdAsc rows).
Proof. apply StronglySorted_merge_sort; apply _. Qed.

Lemma byIdAsc_perm rows : byIdAsc rows ≡ₚ rows.
Proof. apply merge_sort_Permutation. Qed.

Lemma elem_of_filter_rows (f : Row → bool) (rows : list Row) (x : Row) :
  x ∈ List.filter f rows ↔ x ∈ rows ∧ f x = true.
Proof. by rewrite !list_elem_of_In, filter_In. Qed.

(** The head of the rows in descending id order is the row with the
    greatest id. *)
Lemma one_newest (rows : list Row) :
  match one (reverse (byIdAsc rows)) with
  | Found r => r ∈ rows ∧ ∀ x, x ∈ rows → field "id" x ≤ field "id" r
  | ErrRecordNotFound => rows = []
  | Failed => False
  end.
Proof.
  pose proof (byIdAsc_sorted rows) as Hsorted.
  pose proof (byIdAsc_perm rows) as Hperm.
  destruct (reverse (byIdAsc rows)) as [|r t] eqn:Hrev; simpl.
  - apply (f_equal reverse) in Hrev. rewrite reverse_involutive in Hrev.
    rewrite Hrev in Hperm. by apply Permutation_nil_l in Hperm.
  - apply (f_equal reverse) in Hrev.
    rewrite reverse_involutive, reverse_cons in Hrev.
    rewrite Hrev in Hsorted, Hperm.
    apply StronglySorted_app in Hsorted as (Hcross & _ & _).
    split.
    + rewrite <- Hperm. apply elem_of_app. right. constructor.
    + intros x Hx. rewrite <- Hperm in Hx. apply elem_of_app in Hx as [Hx|Hx].
      * apply (Hcross x r Hx). constructor.
      * apply list_elem_of_singleton in Hx as ->. lia.
Qed.

(** [Last] under the error handling of the [GetLatest...] functions. *)
Lemma latestOf_Last (q : Query) :
  newestWhere (selects q) (qDb q) (Orm.latestOf (Last q)).
Proof.
  unfold Last. destruct (driverError (qDb q)) eqn:Herr; [done|].
  pose proof (one_newest (List.filter (selects q) (table (qDb q)))) as Hone.
  destruct (one _) as [r| |]; simpl; [| |done].
  - destruct Hone as [Hr Hmax]. apply elem_of_filter_rows in Hr as [Hr Hsel].
    split; [done|]. split; [done|]. split; [done|].
    intros x Hx Hp. apply Hmax. by apply elem_of_filter_rows.
  - split; [done|]. intros x Hx.
    destruct (selects q x) eqn:Hsel; [|done].
    assert (x ∈ List.filter (selects q) (table (qDb q))) as Hin
      by (by apply elem_of_filter_rows).
    rewrite Hone in Hin. by apply elem_of_nil in Hin.
Qed.

Lemma newestWhere_ext (p p' : Row → bool) m res :
  (∀ r, p r = p' r) → newestWhere p m res → newestWhere p' m res.
Proof.
  intros Hext. destruct res as [[r|]|]; simpl; [| |done].
  - intros (H1 & H2 & H3 & H4). split; [done|]. split; [done|].
    split; [by rewrite <- Hext|]. intros x Hx Hp. apply H4; [done|].
    by rewrite Hext.
  - intros [H1 H2]. split; [done|]. intros x Hx. rewrite <- Hext. by apply H2.
Qed.

End StoreQueries.

(** Each of the three "latest valid" functions returns the live row with the
    greatest id among those it filters for: valid block status of the layer,
    valid block status on both layers, valid ETH balance status of the
    layer.  It returns no row and no error when no row qualifies, and an
    error exactly when the driver fails. *)
Theorem latest_valid_functions_return_the_newest_row (K : TypesConsts)
    (O : Orm.OrmConsts) (m : Gorm.DB) (layer : LayerType) :
  newestWhere (liveWith (blockStatusColumn layer) Orm.BlockStatusTypeValid) m
    (Orm.GetLatestBlockValidMessageMatch m layer)
  ∧ newestWhere
      (λ r, liveWith "l1_block_status" Orm.BlockStatusTypeValid r
            && liveWith "l2_block_status" Orm.BlockStatusTypeValid r) m
      (Orm.GetLatestDoubleLayerValidMessageMatch m)
  ∧ newestWhere (liveWith (ethBalanceStatusColumn layer) ETHBalanceStatusTypeValid)
      m (Orm.GetLatestValidETHBalanceMessageMatch m layer).
Proof.
  split; [|split].
  - unfold Orm.GetLatestBlockValidMessageMatch.
    destruct layer;
      (eapply newestWhere_ext; [|apply latestOf_Last]);
      intros r; unfold Gorm.selects, liveWith; simpl;
      by destruct (Gorm.visible r).
  - unfold Orm.GetLatestDoubleLayerValidMessageMatch.
    eapply newestWhere_ext; [|apply latestOf_Last].
    intros r. unfold Gorm.selects, liveWith. simpl.
    destruct (Gorm.visible r); [|done]. simpl.
    by destruct (Gorm.colEq "l1_block_status" Orm.BlockStatusTypeValid r).
  - unfold Orm.GetLatestValidETHBalanceMessageMatch.
    destruct layer;
      (eapply newestWhere_ext; [|apply latestOf_Last]);
      intros r; unfold Gorm.selects, liveWith; simpl;
      by destruct (Gorm.visible r).
Qed.

(** [GetLargestMessageNonceL2MessageMatch] returns the live row with the
    greatest id among those with a positive message nonce, no row and no
    error when there is none, and an error exactly when the driver fails. *)
Theorem largest_nonce_query_returns_newest_row_with_nonce (m : Gorm.DB) :
  newestWhere carriesNonce m (Orm.GetLargestMessageNonceL2MessageMatch m).
Proof.
  pose proof (latestOf_Last
    (Gorm.Where (Gorm.colGt "message_nonce" 0) (Gorm.WithContext m))) as Hlast.
  eapply newestWhere_ext in Hlast; [|intros r; reflexivity].
  unfold Orm.GetLargestMessageNonceL2MessageMatch, Gorm.First.
  unfold Gorm.Last in Hlast. simpl in *.
  destruct (Gorm.driverError m); [done|].
  unfold Gorm.selects in *. simpl in *.
  destruct (Gorm.one _) as [r| |]; simpl in *; [| |done].
  - destruct Hlast as (H1 & H2 & H3 & H4). split; [done|]. split; [done|].
    split; [exact H3|]. intros x Hx Hp. by apply H4.
  - destruct Hlast as [H1 H2]. split; [done|]. intros x Hx. by apply H2.
Qed.

(** When the nonces of the live rows grow with their ids, the row returned
    by [GetLargestMessageNonceL2MessageMatch] carries the largest message
    nonce of the table. *)
Theorem largest_nonce_query_returns_largest_when_nonces_grow (m : Gorm.DB)
    (r : Gorm.Row)
    (Hgrow : noncesGrowWithId m)
    (Hres : Orm.GetLargestMessageNonceL2MessageMatch m = Gorm.Ok (Some r)) :
  ∀ x, x ∈ Gorm.table m → carriesNonce x = true →
    Gorm.field "message_nonce" x ≤ Gorm.field "message_nonce" r.
Proof.
  pose proof (latestOf_Last
    (Gorm.Where (Gorm.colGt "message_nonce" 0) (Gorm.WithContext m))) as Hlast.
  assert (Orm.latestOf (Gorm.Last
            (Gorm.Where (Gorm.colGt "message_nonce" 0) (Gorm.WithContext m)))
          = Gorm.Ok (Some r)) as Heq.
  { revert Hres.
    unfold Orm.GetLargestMessageNonceL2MessageMatch, Gorm.First, Gorm.Last.
    simpl. destruct (Gorm.driverError m); [done|].
    by destruct (Gorm.one _). }
  rewrite Heq in Hlast. destruct Hlast as (_ & Hr & Hsel & Hmax).
  intros x Hx Hp. apply Hgrow; [done..|].
  apply Hmax; [done|]. exact Hp.
Qed.

Lemma largest_nonce_query_returns_largest_when_nonces_grow_witness :
  Gorm.field "message_nonce" (storeRow 1 1 10 2 5 1 4)
  ≤ Gorm.field "message_nonce" (storeRow 2 2 20 1 6 1 9).
Proof.
  apply (largest_nonce_query_returns_largest_when_nonces_grow sampleStore
           (storeRow 2 2 20 1 6 1 9)).
  - intros x y Hx Hy.
    unfold sampleStore in Hx, Hy. cbn [Gorm.table] in Hx, Hy.
    repeat (apply elem_of_cons in Hx as [->|Hx]);
      repeat (apply elem_of_cons in Hy as [->|Hy]);
      try (by apply elem_of_nil in Hx); try (by apply elem_of_nil in Hy);
      vm_compute; congruence.
  - by vm_compute.
  - unfold sampleStore. cbn [Gorm.table]. do 1 constructor. constructor.
  - by vm_compute.
Defined.

Section ReadyRows.
Context {K : TypesConsts} {O : Orm.OrmConsts}.

Lemma readyForCheck_selects (m : Gorm.DB) (limit : Z) (r : Gorm.Row) :
  Gorm.selects
    (Gorm.Limit limit (Gorm.Order Gorm.IdAsc
      (Gorm.Where (Gorm.colEq "check_status" Orm.CheckStatusUnchecked)
        (Gorm.Where (Gorm.colEq "l2_block_status" Orm.BlockStatusTypeValid)
          (Gorm.Where (Gorm.colEq "l1_block_status" Orm.BlockStatusTypeValid)
            (Gorm.WithContext m)))))) r
  = readyForCheck r.
Proof.
  unfold Gorm.selects, readyForCheck. simpl.
  by rewrite !andb_assoc.
Qed.

End ReadyRows.

(** For a positive limit, [GetUncheckedAndDoubleLayerValidGatewayMessageMatchs]
    returns at most [limit] rows in ascending id order, each a live row of the
    table that is valid on both layers and unchecked; a row of that kind that
    is not returned has an id at or above every returned one, and then the
    answer is full.  It fails exactly when the driver fails. *)
Theorem unchecked_query_returns_earliest_ready_rows (O : Orm.OrmConsts)
    (m : Gorm.DB) (limit : Z) (Hlimit : 0 < limit) :
  match Orm.GetUncheckedAndDoubleLayerValidGatewayMessageMatchs m limit with
  | Gorm.Ok rows =>
      Gorm.driverError m = false
      ∧ StronglySorted Gorm.idLe rows
      ∧ Z.of_nat (length rows) ≤ limit
      ∧ (∀ r, r ∈ rows → r ∈ Gorm.table m ∧ readyForCheck r = true)
      ∧ (∀ x, x ∈ Gorm.table m → readyForCheck x = true →
           x ∈ rows
           ∨ (Z.of_nat (length rows) = limit
              ∧ ∀ r, r ∈ rows → Gorm.field "id" r ≤ Gorm.field "id" x))
  | Gorm.Err => Gorm.driverError m = true
  end.
Proof.
  unfold Orm.GetUncheckedAndDoubleLayerValidGatewayMessageMatchs, Gorm.Find.
  cbn zeta.
  set (q := Gorm.Limit limit _).
  change (Gorm.qDb q) with m. change (Gorm.qLimit q) with (Some limit).
  change (Gorm.qOrder q) with (Some Gorm.IdAsc).
  destruct (Gorm.driverError m) eqn:Herr; [done|].
  unfold Gorm.limited, Gorm.ordered.
  destruct (Z.ltb_spec limit 0) as [?|_]; [lia|].
  set (ready := List.filter (Gorm.selects q) (Gorm.table m)).
  assert (∀ r, r ∈ ready ↔ r ∈ Gorm.table m ∧ readyForCheck r = true) as Hready.
  { intros r. unfold ready. rewrite elem_of_filter_rows.
    unfold q. by rewrite readyForCheck_selects. }
  pose proof (byIdAsc_sorted ready) as Hsorted.
  pose proof (byIdAsc_perm ready) as Hperm.
  set (s := Gorm.byIdAsc ready) in *.
  set (n := Z.to_nat limit).
  rewrite <- (take_drop n s) in Hsorted.
  apply StronglySorted_app in Hsorted as (Hcross & Htake & _).
  split; [done|]. split; [exact Htake|]. split.
  { rewrite length_take. lia. }
  split.
  - intros r Hr. apply Hready. rewrite <- Hperm.
    rewrite <- (take_drop n s). apply elem_of_app. by left.
  - intros x Hx Hp.
    assert (x ∈ s) as Hs by (rewrite Hperm; by apply Hready).
    rewrite <- (take_drop n s) in Hs. apply elem_of_app in Hs as [Hs|Hs].
    + by left.
    + right. split.
      * rewrite length_take.
        assert (length (drop n s) ≠ 0%nat) as Hlen
          by (destruct (drop n s); [by apply elem_of_nil in Hs|done]).
        rewrite length_drop in Hlen. lia.
      * intros r Hr. by apply (Hcross r x).
Qed.

Lemma unchecked_query_returns_earliest_ready_rows_witness :
  Orm.GetUncheckedAndDoubleLayerValidGatewayMessageMatchs
    (O := sampleOrmConsts)
    (Gorm.mkDB [storeRow 3 2 30 2 7 1 0; storeRow 1 2 10 2 5 1 4;
                storeRow 2 2 20 1 6 1 9; storeRow 4 2 40 2 8 1 0] false) 1
  = Gorm.Ok [storeRow 1 2 10 2 5 1 4]
  ∧ Gorm.field "id" (storeRow 1 2 10 2 5 1 4)
    ≤ Gorm.field "id" (storeRow 3 2 30 2 7 1 0).
Proof.
  pose proof (unchecked_query_returns_earliest_ready_rows sampleOrmConsts
    (Gorm.mkDB [storeRow 3 2 30 2 7 1 0; storeRow 1 2 10 2 5 1 4;
                storeRow 2 2 20 1 6 1 9; storeRow 4 2 40 2 8 1 0] false) 1
    ltac:(lia)) as Hq.
  assert (Orm.GetUncheckedAndDoubleLayerValidGatewayMessageMatchs
            (O := sampleOrmConsts)
            (Gorm.mkDB [storeRow 3 2 30 2 7 1 0; storeRow 1 2 10 2 5 1 4;
                        storeRow 2 2 20 1 6 1 9; storeRow 4 2 40 2 8 1 0] false) 1
          = Gorm.Ok [storeRow 1 2 10 2 5 1 4]) as Hrun by (by vm_compute).
  rewrite Hrun in Hq. split; [done|].
  destruct Hq as (_ & _ & _ & _ & Hrest).
  destruct (Hrest (storeRow 3 2 30 2 7 1 0)) as [Hin|[_ Hle]].
  - cbn [Gorm.table]. constructor.
  - by vm_compute.
  - apply elem_of_cons in Hin as [Heq|Hin]; [|by apply elem_of_nil in Hin].
    apply (f_equal (Gorm.field "id")) in Heq. by vm_compute in Heq.
  - apply Hle. constructor.
Defined.

Section Progress.
Context {O : Orm.OrmConsts}.
Import Gorm.

(** The rows a [Find] returns are rows the statement selects. *)
Lemma Find_selected (q : Query) (rows : list Row) (r : Row) :
  Find q = Ok rows → r ∈ rows → r ∈ table (qDb q) ∧ selects q r = true.
Proof.
  unfold Find. destruct (driverError (qDb q)); [done|].
  intros [= <-] Hr. apply elem_of_filter_rows.
  assert (r ∈ ordered (qOrder q) (List.filter (selects q) (table (qDb q))))
    as Hord.
  { unfold limited in Hr. destruct (qLimit q) as [n|]; [|done].
    destruct (n <? 0); [done|]. by apply elem_of_take in Hr as (i & Hi & _);
      apply list_elem_of_lookup_2 in Hi. }
  unfold ordered in Hord. destruct (qOrder q) as [[]|]; [| |done].
  - by rewrite byIdAsc_perm in Hord.
  - by rewrite elem_of_reverse, byIdAsc_perm in Hord.
Qed.

Lemma readyForCheck_assign_checked layer (status now : Z) (r : Row) :
  Orm.CheckStatusChecked ≠ Orm.CheckStatusUnchecked →
  readyForCheck
    (assign [(crossChainStatusColumn layer, status);
             ("check_status"%string, Orm.CheckStatusChecked)] now r)
  = false.
Proof.
  intros Hne. unfold readyForCheck.
  destruct (crossChainStatusColumn_fresh layer) as (H1 & H2 & H3 & H4).
  assert (colEq "check_status" Orm.CheckStatusUnchecked
            (assign [(crossChainStatusColumn layer, status);
                     ("check_status"%string, Orm.CheckStatusChecked)] now r)
          = false) as ->; [|by rewrite andb_false_r].
  unfold colEq, colTest, assign. cbn [foldr fst snd].
  rewrite !lookup_insert_ne by done. rewrite lookup_insert_eq.
  by apply Z.eqb_neq.
Qed.

End Progress.

(** A row marked by [UpdateCrossChainStatus] is never handed out again by
    [GetUncheckedAndDoubleLayerValidGatewayMessageMatchs]: when the checked
    and unchecked status constants differ, no row the query returns after the
    update is named by the update's id list.  The rows it does return were
    ready for the check before the update as well. *)
Theorem marked_rows_leave_the_unchecked_query (O : Orm.OrmConsts)
    (m : Gorm.DB) (now : Z) (ids : list Z) (layerType : LayerType)
    (status limit : Z) (rows : list Gorm.Row)
    (Hconsts : Orm.CheckStatusChecked ≠ Orm.CheckStatusUnchecked)
    (Hrows : Orm.GetUncheckedAndDoubleLayerValidGatewayMessageMatchs
               (Orm.UpdateCrossChainStatus m now ids layerType status).2 limit
             = Gorm.Ok rows) :
  ∀ r, r ∈ rows →
    namedBy ids r = false ∧ r ∈ Gorm.table m ∧ readyForCheck r = true.
Proof.
  intros r Hr.
  unfold Orm.GetUncheckedAndDoubleLayerValidGatewayMessageMatchs in Hrows.
  cbn zeta in Hrows.
  destruct (Find_selected _ _ r Hrows Hr) as [Hin Hsel].
  rewrite readyForCheck_selects in Hsel.
  change (Gorm.qDb _) with
    (Orm.UpdateCrossChainStatus m now ids layerType status).2 in Hin.
  destruct (Gorm.driverError m) eqn:Hok.
  - unfold Orm.UpdateCrossChainStatus, Gorm.Updates in Hrows.
    destruct layerType; simpl in Hrows; rewrite Hok in Hrows;
      unfold Gorm.Find in Hrows; simpl in Hrows; by rewrite Hok in Hrows.
  - rewrite UpdateCrossChainStatus_table in Hin by done.
    cbn [snd Gorm.table] in Hin.
    apply list_elem_of_fmap in Hin as (r0 & -> & Hr0).
    destruct (namedBy ids r0) eqn:Hnamed.
    + by rewrite readyForCheck_assign_checked in Hsel.
    + done.
Qed.

Lemma marked_rows_leave_the_unchecked_query_witness :
  namedBy [1] (storeRow 3 2 30 2 7 1 0) = false.
Proof.
  apply (marked_rows_leave_the_unchecked_query sampleOrmConsts
           (Gorm.mkDB [storeRow 3 2 30 2 7 1 0; storeRow 1 2 10 2 5 1 4;
                       storeRow 2 2 20 1 6 1 9] false)
           77 [1] Layer1 5 10 [storeRow 3 2 30 2 7 1 0]).
  - simpl. lia.
  - by vm_compute.
  - constructor.
Defined.

(** * Properties of the upsert column list *)

Lemma elem_of_when (b : bool) (cs : list string) (c : string) :
  c ∈ (if b then cs else []) ↔ b = true ∧ c ∈ cs.
Proof.
  destruct b.
  - split; [by split|by intros [_ ?]].
  - split; [by intros ?%elem_of_nil|by intros [? _]].
Qed.

Lemma ethEventColumns_pieces (K : TypesConsts) (message : Gorm.Row) :
  Orm.ethEventColumns message
  = (if hasEvent "l1_event_type" L1SentMessage message
     then l1EventColumns ++ amountColumns else [])
    ++ (if hasEvent "l1_event_type" L1RelayedMessage message
        then l1EventColumns else [])
    ++ (if hasEvent "l2_event_type" L2SentMessage message
        then l2EventColumns ++ amountColumns else [])
    ++ (if hasEvent "l2_event_type" L2RelayedMessage message
        then l2EventColumns else []).
Proof.
  unfold Orm.ethEventColumns, hasEvent. cbn zeta.
  destruct (negb (Gorm.field "l1_event_type" message =? 0)
            && (Gorm.field "l1_event_type" message =? L1SentMessage));
  destruct (negb (Gorm.field "l1_event_type" message =? 0)
            && (Gorm.field "l1_event_type" message =? L1RelayedMessage));
  destruct (negb (Gorm.field "l2_event_type" message =? 0)
            && (Gorm.field "l2_event_type" message =? L2SentMessage));
  destruct (negb (Gorm.field "l2_event_type" message =? 0)
            && (Gorm.field "l2_event_type" message =? L2RelayedMessage));
  reflexivity.
Qed.

(** The columns [InsertOrUpdateETHEventInfo] overwrites on a conflict are
    event columns and amount columns only (never a status, balance, proof or
    nonce column): the event columns of a layer exactly when the message
    carries that layer's sent or relayed event, the two amount columns exactly
    when it carries the sent event of either layer.  A relayed event alone
    never overwrites an amount. *)
Theorem event_upsert_overwrites_only_event_columns (K : TypesConsts)
    (message : Gorm.Row) (c : string) :
  c ∈ Orm.ethEventColumns message ↔
    (c ∈ l1EventColumns
     ∧ hasEvent "l1_event_type" L1SentMessage message
       || hasEvent "l1_event_type" L1RelayedMessage message = true)
    ∨ (c ∈ l2EventColumns
       ∧ hasEvent "l2_event_type" L2SentMessage message
         || hasEvent "l2_event_type" L2RelayedMessage message = true)
    ∨ (c ∈ amountColumns
       ∧ hasEvent "l1_event_type" L1SentMessage message
         || hasEvent "l2_event_type" L2SentMessage message = true).
Proof.
  rewrite ethEventColumns_pieces.
  rewrite !elem_of_app, !elem_of_when, !elem_of_app, !orb_true_iff.
  tauto.
Qed.

Lemma hasEvent_exclusive (col : string) (a b : Z) (message : Gorm.Row) :
  a ≠ b → hasEvent col a message = true → hasEvent col b message = false.
Proof.
  unfold hasEvent. intros Hne [_ Ha%Z.eqb_eq]%andb_true_iff.
  apply andb_false_iff. right. apply Z.eqb_neq. lia.
Qed.

(** With distinct event constants, the column list of
    [InsertOrUpdateETHEventInfo] names a column twice exactly when the
    message carries the sent events of both layers (the two amount columns
    are then appended twice). *)
Theorem event_upsert_repeats_amount_columns (K : TypesConsts)
    (message : Gorm.Row) (Hdistinct : distinct_events K) :
  NoDup (Orm.ethEventColumns message) ↔
    hasEvent "l1_event_type" L1SentMessage message
    && hasEvent "l2_event_type" L2SentMessage message = false.
Proof.
  destruct Hdistinct as [H1 H2].
  rewrite ethEventColumns_pieces.
  pose proof (hasEvent_exclusive "l1_event_type" _ _ message H1) as Hx1.
  pose proof (hasEvent_exclusive "l2_event_type" _ _ message H2) as Hx2.
  destruct (hasEvent "l1_event_type" L1SentMessage message);
    destruct (hasEvent "l2_event_type" L2SentMessage message);
    try rewrite (Hx1 eq_refl); try rewrite (Hx2 eq_refl);
    try destruct (hasEvent "l1_event_type" L1RelayedMessage message);
    try destruct (hasEvent "l2_event_type" L2RelayedMessage message);
    cbn [andb];
    (split; [intros Hnd|intros Hb]);
    first [ reflexivity
          | discriminate Hb
          | apply (bool_decide_unpack _); by vm_compute
          | exfalso; revert Hnd; apply (bool_decide_unpack _); by vm_compute ].
Qed.

Lemma event_upsert_repeats_amount_columns_witness :
  NoDup (Orm.ethEventColumns (K := sampleConsts)
           (<["l1_event_type" := Gorm.VInt 2]> (storeRow 1 2 10 2 5 1 4))).
Proof.
  apply (event_upsert_repeats_amount_columns sampleConsts).
  - split; by vm_compute.
  - by vm_compute.
Defined.
